(** * Pipeline-Server: the request handlers of [app.js] and of its
      identity-free variant, embedded as functions over an explicit
      provider state.

    The server relays requests to three vendor SDKs (Resend, Stripe,
    Firebase Auth).  The SDK calls are the only effects of a handler:
    they are modelled as an oracle over an abstract world, every call is
    logged, and a handler is a computation that either answers with a
    response or lets a JavaScript exception escape.  Writing to the
    console is not modelled.  A number is the exact rational value of its
    double, and arithmetic on numbers rounds as IEEE 754 binary64 does. *)

From Stdlib Require Import Ascii QArith Qround Qpower Lqa Floats Uint63.
From stdpp Require Import base strings list gmap pretty.

#[local] Set Warnings "-register-all".

(** ** JavaScript values *)

(** A value of a parsed JSON request body ([express.json()]), together
    with [undefined], which is what reading an absent property gives. *)
Inductive JsVal : Type :=
| JUndefined
| JNull
| JBool (b : bool)
| JNum (q : Q)
| JStr (s : string)
| JArr (l : list JsVal)
| JObj (o : gmap string JsVal).

(** A thrown JavaScript [Error]; the handlers only ever read [.message]. *)
Record JsError := mkError { err_name : string; message : string }.

Inductive Result (A : Type) : Type :=
| Ok (a : A)
| Throw (e : JsError).
Arguments Ok {A} a.
Arguments Throw {A} e.

(** [Array.isArray(v)] *)
Definition Array_isArray (v : JsVal) : bool :=
  match v with JArr _ => true | _ => false end.

(** ToBoolean, as used by [?:], [||] and [if]. *)
Definition truthy (v : JsVal) : bool :=
  match v with
  | JUndefined | JNull => false
  | JBool b => b
  | JNum q => negb (Qeq_bool q 0)
  | JStr s => negb (String.eqb s "")
  | JArr _ | JObj _ => true
  end.

(** [a || b] on values. *)
Definition js_or (a b : JsVal) : JsVal := if truthy a then a else b.

Definition TypeError (msg : string) : JsError := mkError "TypeError" msg.

(** What V8 prints for the value in "Cannot read properties of ...". *)
Definition nullish_name (v : JsVal) : string :=
  match v with JNull => "null" | _ => "undefined" end.

(** Property read [v.k] / [v[k]] for the keys the handlers use: it throws
    on [null] and [undefined], finds own properties of objects, and is
    [undefined] on primitives and arrays (none of the keys read by the
    handlers is a built-in of those). *)
Definition js_get (v : JsVal) (k : string) : Result JsVal :=
  match v with
  | JUndefined | JNull =>
      Throw (TypeError ("Cannot read properties of " +:+ nullish_name v
                        +:+ " (reading '" +:+ k +:+ "')"))
  | JObj o => Ok (default JUndefined (o !! k))
  | _ => Ok JUndefined
  end.

(** One property of a destructuring [const { k, ... } = source]: the
    same read, but V8 words the failure on [null] and [undefined] after
    the first property of the pattern. *)
Definition js_destructure (source : string) (v : JsVal) (k : string)
    : Result JsVal :=
  match v with
  | JUndefined | JNull =>
      Throw (TypeError ("Cannot destructure property '" +:+ k +:+ "' of '"
                        +:+ source +:+ "' as it is " +:+ nullish_name v +:+ "."))
  | _ => js_get v k
  end.

(** ** Numbers *)

(** A JavaScript number is an IEEE 754 binary64 value.  A finite one is
    kept as the rational it denotes (so [-0] is [0], as in the JSON the
    handlers send), and the result of an arithmetic operation is the
    exact result rounded to the nearest double, ties to even. *)

(** [2 ** e] *)
Definition pow2 (e : Z) : Q := (2 ^ e)%Q.

(** The binary exponent of [q > 0]: the [k] with [2^k <= q < 2^(k+1)]. *)
Definition log2_floor (q : Q) : Z :=
  let k := (Z.log2 (Qnum q) - Z.log2 (Zpos (Qden q)))%Z in
  if Qle_bool (pow2 k) q then k else (k - 1)%Z.

(** The nearest integer, the even one when two are as near. *)
Definition round_half_even (q : Q) : Z :=
  let f := Qfloor q in
  match (q - inject_Z f ?= 1 # 2)%Q with
  | Lt => f
  | Gt => (f + 1)%Z
  | Eq => if Z.even f then f else (f + 1)%Z
  end.

(** The double nearest to [q > 0]: 53 significant bits, and below
    [2^-1022] the fixed spacing [2^-1074] of the subnormals.  (Overflow
    to [Infinity], from [2^1024] on, is not represented: no handler
    computes a number larger than one it was given.) *)
Definition round_positive (q : Q) : Q :=
  let e := Z.max (log2_floor q - 52) (-1074) in
  inject_Z (round_half_even (q / pow2 e)) * pow2 e.

(** The double nearest to [q]. *)
Definition Number_round (q : Q) : Q :=
  match (q ?= 0)%Q with
  | Eq => 0
  | Gt => round_positive q
  | Lt => - round_positive (- q)
  end.

(** [x / y] on numbers, for a divisor other than zero. *)
Definition Number_divide (x y : Q) : Q := Number_round (x / y).

(** The rational a finite kernel float denotes; the kernel's floats are
    binary64 too, and serve to test the rounding above. *)
Definition float_value (x : float) : Q :=
  match Prim2SF x with
  | S754_finite s m e => (if s then -1 else 1) * inject_Z (Zpos m) * pow2 e
  | _ => 0
  end.

(** The double written [k/10] in decimal, as the kernel computes it. *)
Definition tenths (k : nat) : float :=
  (of_uint63 (Uint63.of_Z (Z.of_nat k)) / 10)%float.

(** ** Strings *)

(** [s.split(sep)] for a one-character separator, the only way the
    source calls it ([email.split("@")]). *)
Fixpoint String_split (sep : ascii) (s : string) : list string :=
  match s with
  | EmptyString => [EmptyString]
  | String c s' =>
      if Ascii.eqb c sep then EmptyString :: String_split sep s'
      else match String_split sep s' with
           | h :: t => String c h :: t
           | [] => [String c EmptyString]
           end
  end.

(** The double-quote character, as a string. *)
Definition dquote : string := String "034"%char EmptyString.

Definition at_sign : ascii := "@"%char.

(** [const emailDomain = email.split("@")[1];]  ([None] is [undefined]). *)
Definition emailDomain (email : string) : option string :=
  String_split at_sign email !! 1%nat.

(** ** Coupons and the discount resolver *)

(** Modelled from the spec: the Stripe coupon object, whose declaration
    lives in the vendor SDK.  Section 3 of the specification gives its
    attributes; only those the handlers read are kept.  [percent_off]
    is the value of the double the SDK parsed; [None] for
    [max_redemptions] is Stripe's [null] (no maximum); an absent metadata
    key reads as [undefined]. *)
Record Coupon := mkCoupon {
  id : string;
  percent_off : Q;
  max_redemptions : option Z;
  times_redeemed : Z;
  metadata : gmap string string
}.

(** [c.metadata.allowed_email === email] *)
Definition allowed_email_is (email : string) (c : Coupon) : bool :=
  bool_decide (metadata c !! "allowed_email" = Some email).

(** [c.metadata.allowed_domain === domain]; [domain] may be [undefined],
    and then strict equality holds exactly when the key is absent. *)
Definition allowed_domain_is (domain : option string) (c : Coupon) : bool :=
  bool_decide (metadata c !! "allowed_domain" = domain).

(** [function getDiscount(coupons, email, domain)] *)
Definition getDiscount (coupons : list Coupon) (email : string)
    (domain : option string) : option Coupon :=
  let emailCoupons := List.filter (allowed_email_is email) coupons in
  let domainCoupons := List.filter (allowed_domain_is domain) coupons in
  let emailDiscount := List.find (allowed_email_is email) emailCoupons in
  match emailDiscount with
  | Some c => Some c
  | None =>
      let domainDiscount := List.find (allowed_domain_is domain) domainCoupons in
      match domainDiscount with
      | Some c => Some c
      | None => None
      end
  end.

(** [c] is the first element of [l], in list order, that satisfies [P]. *)
Definition first_match {A : Type} (P : A → Prop) (l : list A) (c : A) : Prop :=
  ∃ l1 l2, l = l1 ++ c :: l2 ∧ P c ∧ Forall (λ x, ¬ P x) l1.

(** ** Conversions of the JavaScript runtime *)

#[export] Instance Result_ret : MRet Result := λ _ a, Ok a.
#[export] Instance Result_bind : MBind Result := λ _ _ f r,
  match r with Ok a => f a | Throw e => Throw e end.

Fixpoint Result_mapM {A B : Type} (f : A → Result B) (l : list A) : Result (list B) :=
  match l with
  | [] => Ok []
  | x :: rest => y ← f x; ys ← Result_mapM f rest; Ok (y :: ys)
  end.

Section Runtime.
(** Number::toString of the engine (shortest round-trip decimal); the
    handlers only interpolate it into messages. *)
Variable Number_toString : Q → string.

(** ToString, as applied by template literals.  An object parsed from
    JSON has no callable own property, so one that carries its own
    [toString] key cannot be converted and the conversion throws;
    arrays are joined with commas, holes for [null]. *)
Fixpoint ToString (v : JsVal) : Result string :=
  match v with
  | JUndefined => Ok "undefined"
  | JNull => Ok "null"
  | JBool b => Ok (if b then "true" else "false")
  | JNum q => Ok (Number_toString q)
  | JStr s => Ok s
  | JArr l =>
      (fix join (l : list JsVal) : Result string :=
         match l with
         | [] => Ok ""
         | x :: rest =>
             s ← match x with
                 | JUndefined | JNull => Ok ""
                 | _ => ToString x
                 end;
             match rest with
             | [] => Ok s
             | _ => r ← join rest; Ok (s +:+ "," +:+ r)
             end
         end) l
  | JObj o =>
      match o !! "toString" with
      | Some _ => Throw (TypeError "Cannot convert object to primitive value")
      | None => Ok "[object Object]"
      end
  end.

(** ToPrimitive, the first step of [Number(v)] and [new Date(v)]. *)
Definition ToPrimitive (v : JsVal) : Result JsVal :=
  match v with
  | JArr _ | JObj _ => s ← ToString v; Ok (JStr s)
  | _ => Ok v
  end.
End Runtime.

(** A number handed to Stripe: either [Number(v)], kept as the primitive
    it is computed from, or a literal of the source. *)
Inductive JsNumber : Type :=
| ToNumber (prim : JsVal)
| Literal (n : Z).

(** [Math.floor(new Date(v).getTime() / 1000)], kept as the primitive
    the date is parsed from. *)
Inductive EpochSeconds : Type :=
| SecondsOfDate (prim : JsVal).

(** [v === "literal"] *)
Definition strict_eq_str (v : JsVal) (s : string) : bool :=
  match v with JStr s' => String.eqb s' s | _ => false end.

(** [email.split("@")] on a request value: only strings have [split]. *)
Definition js_split_at (name : string) (v : JsVal) : Result (list string) :=
  match v with
  | JStr s => Ok (String_split at_sign s)
  | JUndefined | JNull =>
      Throw (TypeError ("Cannot read properties of " +:+ nullish_name v
                        +:+ " (reading 'split')"))
  | _ => Throw (TypeError (name +:+ ".split is not a function"))
  end.

(** ** Provider objects *)

Record Email := mkEmail { from : string; to : JsVal; subject : string; text : string }.

Record Customer := mkCustomer { customer_id : string }.

Record SubscriptionItem := mkItem { price_id : string; current_period_end : Z }.

Record Subscription := mkSubscription {
  subscription_id : string;
  subscription_status : string;
  items : list SubscriptionItem
}.

Record Price := mkPrice { product : string }.

(** [name] is [None] when the product carries no name. *)
Record Product := mkProduct { product_name : option string }.

Record Session := mkSession { url : option string }.

Record CustomerSession := mkCustomerSession { client_secret : string }.

Record LineItem := mkLineItem { price : string; quantity : Z }.

(** The argument of [stripe.checkout.sessions.create]; [discounts] is
    [None] when the property was never assigned, and otherwise lists the
    [coupon] of each entry. *)
Record CheckoutParams := mkCheckoutParams {
  payment_method_types : list string;
  mode : string;
  line_items : list LineItem;
  customer : JsVal;
  success_url : option string;
  cancel_url : string;
  discounts : option (list string)
}.

(** The argument of [stripe.coupons.create]. *)
Module CouponCreate.
Record params := mk {
  percent_off : JsNumber;
  duration : string;
  max_redemptions : JsNumber;
  redeem_by : option EpochSeconds;
  name : JsVal;
  metadata : string * JsVal
}.
End CouponCreate.

(** Every call the handlers make on a vendor SDK, with its argument. *)
Inductive Call : Type :=
| resend_batch_send (emails : list Email)
| auth_deleteUser (userUid : JsVal)
| stripe_customers_create (email auth_id : JsVal)
| stripe_customers_del (customerId : JsVal)
| stripe_subscriptions_list (customerId : string)
| stripe_prices_retrieve (priceId : option string)
| stripe_products_retrieve (product : string)
| stripe_customerSessions_create (customerId : JsVal)
| stripe_coupons_list
| stripe_coupons_create (p : CouponCreate.params)
| stripe_coupons_del (couponId : string)
| stripe_checkout_sessions_create (p : CheckoutParams).

(** What the awaited promise resolves to, as far as the handlers read it
    ([.data] of a list, the object itself otherwise). *)
Definition Reply (c : Call) : Type :=
  match c with
  | resend_batch_send _ => unit
  | auth_deleteUser _ => unit
  | stripe_customers_create _ _ => Customer
  | stripe_customers_del _ => unit
  | stripe_subscriptions_list _ => list Subscription
  | stripe_prices_retrieve _ => Price
  | stripe_products_retrieve _ => Product
  | stripe_customerSessions_create _ => CustomerSession
  | stripe_coupons_list => list Coupon
  | stripe_coupons_create _ => Coupon
  | stripe_coupons_del _ => unit
  | stripe_checkout_sessions_create _ => Session
  end.

(** The vendors as an oracle over an abstract world: a call either
    resolves to a reply or rejects with an error, and changes the world. *)
Definition Provider (W : Type) : Type := ∀ c : Call, W → Result (Reply c) * W.

(** ** Handler computations *)

(** The state a handler runs in: the vendors' world and the log of the
    calls made so far. *)
Record St (W : Type) := mkSt { world : W; calls : list Call }.
Arguments mkSt {W} world calls.
Arguments world {W} s.
Arguments calls {W} s.

Definition M (W A : Type) : Type := St W → Result A * St W.

#[export] Instance M_ret {W} : MRet (M W) := λ _ a s, (Ok a, s).
#[export] Instance M_bind {W} : MBind (M W) := λ _ _ f m s,
  match m s with
  | (Ok a, s') => f a s'
  | (Throw e, s') => (Throw e, s')
  end.

(** A pure step that may throw. *)
Definition lift {W A} (r : Result A) : M W A := λ s, (r, s).

Definition throw {W A} (e : JsError) : M W A := λ s, (Throw e, s).

(** [try { m } catch (error) { h error }] *)
Definition try_catch {W A} (m : M W A) (h : JsError → M W A) : M W A := λ s,
  match m s with
  | (Ok a, s') => (Ok a, s')
  | (Throw e, s') => h e s'
  end.

(** [await sdk.call(args)]: the call is logged, the world moves on, and
    a rejection is rethrown at the [await]. *)
Definition call {W} (provider : Provider W) (c : Call) : M W (Reply c) := λ s,
  let '(r, w) := provider c (world s) in (r, mkSt w (calls s ++ [c])).

(** ** Responses *)

Record DiscountInfo := mkDiscountInfo { discount : Q; domain : option string }.

Record ErrorEntry := mkErrorEntry { row : nat; coupon : JsVal; error : string }.

(** The JSON bodies the handlers send.  An [option] field is [null] when
    [None], except [subscriptionId] and [errors], which are left out of
    the object (an [undefined] property is not serialised). *)
Inductive Body : Type :=
| json_error (error : string)
| json_message (message : string)
| json_customerId (customerId : string)
| json_subscription (hasSubscription : bool) (status : option string)
    (currentPeriodEnd : option Z) (planName : option string)
    (subscriptionId : option string)
| json_checkoutSessionSecret (checkoutSessionSecret : string)
| json_discount (discount : option DiscountInfo)
| json_sessionUrl (sessionUrl : option string)
| json_coupons (data : list Coupon)
| json_coupon (c : Coupon)
| json_bulk (created failed total : nat) (errors : option (list ErrorEntry)).

(** [res.status(code).json(body)] *)
Record Response := mkResponse { status_code : nat; json : Body }.

(** Process configuration read at start-up. *)
Record Config := mkConfig {
  senderEmail : string;
  subscriptionPriceId : string;
  checkout_success_url : option string;
  checkout_cancel_url : string
}.

(** [app.js]: the price comes from the environment in production, the
    redirect targets from [FRONTEND_URL] (string concatenation with an
    unset variable prints [undefined]). *)
Definition app_config (SENDER_EMAIL : string) (NODE_ENV : option string)
    (SUBSCRIPTION_PRICE_ID : string) (FRONTEND_URL : option string) : Config :=
  mkConfig SENDER_EMAIL
    (if bool_decide (NODE_ENV = Some "production") then SUBSCRIPTION_PRICE_ID
     else "price_1SVczaFG6H6jDaisbaA2rmbz")
    FRONTEND_URL
    (default "undefined" FRONTEND_URL +:+ "/pricing?error=true").

(** The variant without the identity provider hard-codes all three. *)
Definition plain_config (SENDER_EMAIL : string) : Config :=
  mkConfig SENDER_EMAIL "price_1SVczaFG6H6jDaisbaA2rmbz"
    (Some "http://localhost:5173/") "http://localhost:5173/pricing".

(** ** The handlers *)

(** The local variables of the bulk-import loop. *)
Record BulkAcc := mkAcc { created : nat; failed : nat; errors : list ErrorEntry }.

Section Handlers.
Context {W : Type}.
Variable provider : Provider W.
Variable Number_toString : Q → string.
Variable cfg : Config.

#[local] Abbreviation M := (M W).
#[local] Abbreviation call := (call provider).
#[local] Abbreviation ToString := (ToString Number_toString).
#[local] Abbreviation ToPrimitive := (ToPrimitive Number_toString).

Definition respond (code : nat) (body : Body) : M Response :=
  mret (mkResponse code body).

(** [Number(v)] *)
Definition Number (v : JsVal) : Result JsNumber :=
  p ← ToPrimitive v; Ok (ToNumber p).

(** [expiresAt ? Math.floor(new Date(expiresAt).getTime() / 1000) : undefined] *)
Definition redeemBy_of (expiresAt : JsVal) : Result (option EpochSeconds) :=
  if truthy expiresAt
  then p ← ToPrimitive expiresAt; Ok (Some (SecondsOfDate p))
  else Ok None.

(** The elements of an array value ([[]] for anything else, which the
    guards below never iterate). *)
Definition elements_of (v : JsVal) : list JsVal :=
  match v with JArr l => l | _ => [] end.

(** *** POST /send-email *)

(** The callback of [payload.emailObjects.map]. *)
Definition invitation (obj : JsVal) : Result Email :=
  to ← js_get obj "email";
  invitedBy ← js_get obj "invitedBy"; invitedBy ← ToString invitedBy;
  paper ← js_get obj "paper"; paper ← ToString paper;
  contributions ← js_get obj "contributions";
  contributions ← ToString contributions;
  Ok (mkEmail (senderEmail cfg) to "Research Paper Invitation"
        (invitedBy +:+ " added you as a co-author of the work " +:+ dquote
         +:+ paper +:+ dquote +:+ " with the following contribution: "
         +:+ contributions
         +:+ ". If you want to check the status of the publication, please follow this link <NO LINK YET>")).

Definition post_send_email (body : JsVal) : M Response :=
  let payload := body in
  emailObjects ← lift (js_get payload "emailObjects");
  if negb (Array_isArray emailObjects)
     || (length (elements_of emailObjects) <? 1)%nat
  then respond 400 (json_error "Please provide list of emails to send email to")
  else
    emails ← lift (Result_mapM invitation (elements_of emailObjects));
    responses ← call (resend_batch_send emails);
    respond 200 (json_message "Emails has been sent").

(** *** POST /delete-user *)
Definition post_delete_user (body : JsVal) : M Response :=
  userUid ← lift (js_destructure "req.body" body "userUid");
  deleted ← try_catch
    (_ ← call (auth_deleteUser userUid); mret None)
    (λ error, r ← respond 500 (json_error "Failed to delete user"); mret (Some r));
  match deleted with
  | Some r => mret r
  | None => respond 200 (json_message "User deleted successfully")
  end.

(** *** POST /create-customer *)
Definition post_create_customer (body : JsVal) : M Response :=
  let payload := body in
  email ← lift (js_get payload "email");
  auth_id ← lift (js_get payload "auth_id");
  customer ← call (stripe_customers_create email auth_id);
  respond 200 (json_customerId (customer_id customer)).

(** *** POST /delete-stripe-customer *)
Definition post_delete_stripe_customer (body : JsVal) : M Response :=
  customerId ← lift (js_destructure "req.body" body "customerId");
  try_catch
    (_ ← call (stripe_customers_del customerId);
     respond 200 (json_message "Stripe customer deleted successfully"))
    (λ error, respond 500 (json_error "Failed to delete stripe customer")).

(** *** GET /subscription-status/:customerId *)
Definition get_subscription_status (customerId : string) : M Response :=
  try_catch
    (subscriptions ← call (stripe_subscriptions_list customerId);
     if (length subscriptions =? 0)%nat
     then respond 200 (json_subscription false None None None None)
     else
       subscription ← lift (from_option Ok
         (Throw (TypeError "Cannot read properties of undefined (reading 'items')"))
         (subscriptions !! 0%nat));
       let priceId := price_id <$> items subscription !! 0%nat in
       price ← call (stripe_prices_retrieve priceId);
       product ← call (stripe_products_retrieve (product price));
       item ← lift (from_option Ok
         (Throw (TypeError "Cannot read properties of undefined (reading 'current_period_end')"))
         (items subscription !! 0%nat));
       let planName :=
         match product_name product with
         | Some n => if String.eqb n "" then "Unknown Plan" else n
         | None => "Unknown Plan"
         end in
       respond 200 (json_subscription true
         (Some (subscription_status subscription))
         (Some (current_period_end item))
         (Some planName)
         (Some (subscription_id subscription))))
    (λ error, respond 500 (json_error "Failed to fetch subscription status")).

(** *** POST /create-customer-session (variant without identity) *)
Definition post_create_customer_session (body : JsVal) : M Response :=
  customerId ← lift (js_destructure "req.body" body "customerId");
  try_catch
    (session ← call (stripe_customerSessions_create customerId);
     respond 200 (json_checkoutSessionSecret (client_secret session)))
    (λ error, respond 500 (json_error "Failed to create checkout session")).

(** *** POST /discounts *)
Definition post_discounts (body : JsVal) : M Response :=
  email ← lift (js_destructure "req.body" body "email");
  parts ← lift (js_split_at "email" email);
  let emailDomain := parts !! 1%nat in
  coupons ← call stripe_coupons_list;
  (* [email] is a string here: the split above threw otherwise *)
  let discount :=
    getDiscount coupons (match email with JStr s => s | _ => "" end) emailDomain in
  match discount with
  | None => respond 200 (json_discount None)
  | Some discount =>
      if bool_decide (max_redemptions discount = Some (times_redeemed discount))
      then respond 200 (json_discount None)
      else respond 200 (json_discount (Some
             (mkDiscountInfo (Number_divide (percent_off discount) 100)
                (metadata discount !! "allowed_domain"))))
  end.

(** *** POST /create-checkout-session *)
Definition post_create_checkout_session (body : JsVal) : M Response :=
  email ← lift (js_destructure "req.body" body "email");
  customerId ← lift (js_destructure "req.body" body "customerId");
  parts ← lift (js_split_at "email" email);
  let emailDomain := parts !! 1%nat in
  coupons ← call stripe_coupons_list;
  let discount :=
    getDiscount coupons (match email with JStr s => s | _ => "" end) emailDomain in
  let checkoutParams :=
    mkCheckoutParams ["card"] "subscription"
      [mkLineItem (subscriptionPriceId cfg) 1] customerId
      (checkout_success_url cfg) (checkout_cancel_url cfg) None in
  let checkoutParams :=
    match discount with
    | Some discount =>
        mkCheckoutParams (payment_method_types checkoutParams)
          (mode checkoutParams) (line_items checkoutParams)
          (customer checkoutParams) (success_url checkoutParams)
          (cancel_url checkoutParams) (Some [id discount])
    | None => checkoutParams
    end in
  try_catch
    (session ← call (stripe_checkout_sessions_create checkoutParams);
     respond 200 (json_sessionUrl (url session)))
    (λ error, respond 500 (json_sessionUrl None)).
(** *** GET /coupons *)
Definition get_coupons : M Response :=
  try_catch
    (coupons ← call stripe_coupons_list;
     respond 200 (json_coupons coupons))
    (λ error, respond 500 (json_coupons [])).

(** The argument built for a domain coupon, in the order the object
    literal evaluates its properties. *)
Definition domain_coupon_params (discountPercent maxSeats : JsVal)
    (redeemBy : option EpochSeconds) (name domain : JsVal)
    : Result CouponCreate.params :=
  percent_off ← Number discountPercent;
  max_redemptions ← Number maxSeats;
  Ok (CouponCreate.mk percent_off "forever" max_redemptions redeemBy name
        ("allowed_domain", domain)).

(** The argument built for an email coupon. *)
Definition email_coupon_params (discountPercent : JsVal)
    (redeemBy : option EpochSeconds) (name email : JsVal)
    : Result CouponCreate.params :=
  percent_off ← Number discountPercent;
  Ok (CouponCreate.mk percent_off "forever" (Literal 1) redeemBy name
        ("allowed_email", email)).

(** *** POST /coupons *)
Definition post_coupons (body : JsVal) : M Response :=
  try_catch
    (name ← lift (js_destructure "req.body" body "name");
     domain ← lift (js_destructure "req.body" body "domain");
     discountPercent ← lift (js_destructure "req.body" body "discountPercent");
     maxSeats ← lift (js_destructure "req.body" body "maxSeats");
     expiresAt ← lift (js_destructure "req.body" body "expiresAt");
     redeemBy ← lift (redeemBy_of expiresAt);
     params ← lift (domain_coupon_params discountPercent maxSeats redeemBy name domain);
     coupon ← call (stripe_coupons_create params);
     respond 201 (json_coupon coupon))
    (λ error, respond 500 (json_error (message error))).

(** *** POST /manual-override-coupons *)
Definition post_manual_override_coupons (body : JsVal) : M Response :=
  try_catch
    (name ← lift (js_destructure "req.body" body "name");
     email ← lift (js_destructure "req.body" body "email");
     discountPercent ← lift (js_destructure "req.body" body "discountPercent");
     expiresAt ← lift (js_destructure "req.body" body "expiresAt");
     redeemBy ← lift (redeemBy_of expiresAt);
     params ← lift (email_coupon_params discountPercent redeemBy name email);
     coupon ← call (stripe_coupons_create params);
     respond 201 (json_coupon coupon))
    (λ error, respond 500 (json_error (message error))).

(** *** DELETE /coupons/:couponId *)
Definition delete_coupon (couponId : string) : M Response :=
  try_catch
    (_ ← call (stripe_coupons_del couponId);
     respond 200 (json_message "Coupon deleted successfully"))
    (λ error, respond 500 (json_error (message error))).

(** *** POST /coupons/bulk *)

(** The body of the inner [try]: one row, up to [created++]. *)
Definition bulk_try (coupon : JsVal) (acc : BulkAcc) : M BulkAcc :=
  expiresAt ← lift (js_get coupon "expiresAt");
  redeemBy ← lift (redeemBy_of expiresAt);
  type ← lift (js_get coupon "type");
  if strict_eq_str type "domain" then
    discountPercent ← lift (js_get coupon "discountPercent");
    percent_off ← lift (Number discountPercent);
    maxSeats ← lift (js_get coupon "maxSeats");
    max_redemptions ← lift (Number maxSeats);
    name ← lift (js_get coupon "name");
    domain ← lift (js_get coupon "domain");
    _ ← call (stripe_coupons_create
                (CouponCreate.mk percent_off "forever" max_redemptions
                   redeemBy name ("allowed_domain", domain)));
    mret (mkAcc (S (created acc)) (failed acc) (errors acc))
  else if strict_eq_str type "email" then
    discountPercent ← lift (js_get coupon "discountPercent");
    percent_off ← lift (Number discountPercent);
    name ← lift (js_get coupon "name");
    email ← lift (js_get coupon "email");
    _ ← call (stripe_coupons_create
                (CouponCreate.mk percent_off "forever" (Literal 1)
                   redeemBy name ("allowed_email", email)));
    mret (mkAcc (S (created acc)) (failed acc) (errors acc))
  else
    type ← lift (js_get coupon "type");
    shown ← lift (ToString type);
    throw (mkError "Error" ("Invalid coupon type: " +:+ shown)).

(** The inner [catch (error)]: [failed++], then the pushed entry, whose
    [coupon.name] is read from the row again. *)
Definition bulk_catch (i : nat) (coupon : JsVal) (acc : BulkAcc)
    (error : JsError) : M BulkAcc :=
  let failed := S (failed acc) in
  name ← lift (js_get coupon "name");
  let entry :=
    mkErrorEntry (i + 1) (js_or name (JStr ("Row " +:+ pretty (i + 1)%nat)))
      (message error) in
  mret (mkAcc (created acc) failed (errors acc ++ [entry])).

(** [for (let i = ...; i < coupons.length; i++)], from index [i] on. *)
Fixpoint bulk_loop (rows : list JsVal) (i : nat) (acc : BulkAcc) : M BulkAcc :=
  match rows with
  | [] => mret acc
  | coupon :: rest =>
      acc ← try_catch (bulk_try coupon acc) (bulk_catch i coupon acc);
      bulk_loop rest (S i) acc
  end.

Definition post_coupons_bulk (body : JsVal) : M Response :=
  try_catch
    (coupons ← lift (js_destructure "req.body" body "coupons");
     if negb (Array_isArray coupons)
        || (length (elements_of coupons) =? 0)%nat
     then respond 400 (json_error "Please provide an array of coupons")
     else
       acc ← bulk_loop (elements_of coupons) 0 (mkAcc 0 0 []);
       respond 200 (json_bulk (created acc) (failed acc)
         (length (elements_of coupons))
         (if (0 <? length (errors acc))%nat then Some (errors acc) else None)))
    (λ error, respond 500 (json_error (message error))).
End Handlers.

(** ** Reference notions used in the statements *)

(** The specification's wording of the derived domain: the substring
    after the first "@" ([None] when there is no "@"). *)
Fixpoint substring_after_first_at (s : string) : option string :=
  match s with
  | EmptyString => None
  | String c s' =>
      if Ascii.eqb c at_sign then Some s' else substring_after_first_at s'
  end.

(** The part of [s] before its first "@" (all of [s] when it has none). *)
Fixpoint up_to_at (s : string) : string :=
  match s with
  | EmptyString => EmptyString
  | String c s' =>
      if Ascii.eqb c at_sign then EmptyString else String c (up_to_at s')
  end.

(** [s] contains no "@". *)
Fixpoint at_free (s : string) : bool :=
  match s with
  | EmptyString => true
  | String c s' => negb (Ascii.eqb c at_sign) && at_free s'
  end.

(** A value on which a property read does not throw. *)
Definition readable (v : JsVal) : Prop := v ≠ JNull ∧ v ≠ JUndefined.

(** The row numbers of an error list increase strictly and stay within
    [lo < row <= hi]. *)
Fixpoint rows_increasing (lo hi : nat) (es : list ErrorEntry) : Prop :=
  match es with
  | [] => True
  | e :: es' => lo < row e ∧ row e ≤ hi ∧ rows_increasing (row e) hi es'
  end.

(** What the bulk-import loop maintains after [k] rows. *)
Definition bulk_inv (k : nat) (acc : BulkAcc) : Prop :=
  created acc + failed acc = k
  ∧ length (errors acc) = failed acc
  ∧ rows_increasing 0 k (errors acc).

(** ** Vendors used to run the handlers on concrete requests *)

(** All vendors down: every call rejects. *)
Definition down_provider : Provider unit := λ c w,
  (Throw (mkError "Error" "connection refused"), w).

(** The coupon an in-memory Stripe stores for a creation request. *)
Definition stored_coupon (n : nat) (p : CouponCreate.params) : Coupon :=
  mkCoupon ("coupon_" +:+ pretty n)
    (match CouponCreate.percent_off p with ToNumber (JNum q) => q | _ => 0 end)
    (match CouponCreate.max_redemptions p with
     | Literal z => Some z
     | ToNumber (JNum q) => Some (Qnum q / Zpos (Qden q))%Z
     | _ => None
     end)
    0
    (match CouponCreate.metadata p with
     | (k, JStr v) => {[ k := v ]}
     | _ => ∅
     end).

(** An in-memory Stripe whose world is the list of stored coupons; it
    refuses a coupon whose percentage is not a JSON number.  The other
    vendors accept everything, and no customer has a subscription. *)
Definition memory_provider : Provider (list Coupon) := λ c,
  match c return list Coupon → Result (Reply c) * list Coupon with
  | resend_batch_send _ => λ w, (Ok tt, w)
  | auth_deleteUser _ => λ w, (Ok tt, w)
  | stripe_customers_create _ _ => λ w, (Ok (mkCustomer "cus_1"), w)
  | stripe_customers_del _ => λ w, (Ok tt, w)
  | stripe_subscriptions_list _ => λ w, (Ok [], w)
  | stripe_prices_retrieve _ => λ w, (Ok (mkPrice "prod_1"), w)
  | stripe_products_retrieve _ => λ w, (Ok (mkProduct (Some "Pro")), w)
  | stripe_customerSessions_create _ => λ w, (Ok (mkCustomerSession "secret"), w)
  | stripe_coupons_list => λ w, (Ok w, w)
  | stripe_coupons_create p => λ w,
      match CouponCreate.percent_off p with
      | ToNumber (JNum _) =>
          let c := stored_coupon (length w) p in (Ok c, w ++ [c])
      | _ => (Throw (mkError "StripeInvalidRequestError" "Invalid decimal"), w)
      end
  | stripe_coupons_del _ => λ w, (Ok tt, w)
  | stripe_checkout_sessions_create _ => λ w,
      (Ok (mkSession (Some "https://checkout.example/s1")), w)
  end.

(** A stand-in for Number::toString that is right on integers. *)
Definition integer_toString (q : Q) : string :=
  pretty (Qnum q / Zpos (Qden q))%Z.

(** Sample data: the coupons and rows of the specification's examples. *)
Definition email_coupon_a : Coupon :=
  mkCoupon "c_email" 50 (Some 1%Z) 0 {[ "allowed_email" := "a@x.com" ]}.

Definition domain_coupon_x : Coupon :=
  mkCoupon "c_domain" 20 (Some 5%Z) 0 {[ "allowed_domain" := "x.com" ]}.

Definition exhausted_coupon_x : Coupon :=
  mkCoupon "c_used_up" 20 (Some 5%Z) 5 {[ "allowed_domain" := "x.com" ]}.

Definition overdrawn_coupon_x : Coupon :=
  mkCoupon "c_over" 20 (Some 5%Z) 6 {[ "allowed_domain" := "x.com" ]}.

Definition unlimited_coupon_x : Coupon :=
  mkCoupon "c_unlimited" 20 None 3 {[ "allowed_domain" := "x.com" ]}.

Definition domain_row : JsVal :=
  JObj {[ "type" := JStr "domain"; "name" := JStr "ACME"; "domain" := JStr "x.com";
          "discountPercent" := JNum 20; "maxSeats" := JNum 5 ]}.

Definition bogus_row : JsVal := JObj {[ "type" := JStr "bogus" ]}.

Definition email_row : JsVal :=
  JObj {[ "type" := JStr "email"; "name" := JStr "VIP"; "email" := JStr "a@x.com";
          "discountPercent" := JNum 50 ]}.

Definition request (k : string) (v : JsVal) : JsVal := JObj {[ k := v ]}.

(** ** Start-up *)

(** [!value] is false: an environment variable that is set and not empty. *)
Definition env_set (value : option string) : bool :=
  match value with
  | Some v => negb (String.eqb v "")
  | None => false
  end.

(** The checks [app.js] runs on [process.env] before it builds the
    vendor clients, in their order; the configuration the handlers then
    read.  (Building the clients, which parses the service account, comes
    after and is the vendors' code.) *)
Definition check_environment (env : gmap string string) : Result Config :=
  let resendApiKey := env !! "RESEND_API_KEY" in
  let stripeSecretKey := env !! "STRIPE_SECRET_KEY" in
  let senderEmail := env !! "SENDER_EMAIL" in
  let firebaseServiceAccount := env !! "FIREBASE_SERVICE_ACCOUNT" in
  let nodeEnv := env !! "NODE_ENV" in
  let subscriptionPriceId :=
    if bool_decide (nodeEnv = Some "production")
    then env !! "SUBSCRIPTION_PRICE_ID"
    else Some "price_1SVczaFG6H6jDaisbaA2rmbz" in
  if negb (env_set subscriptionPriceId)
  then Throw (mkError "Error" "Please define SUBSCRIPTION_PRICE_ID in .env")
  else if negb (env_set firebaseServiceAccount)
  then Throw (mkError "Error" "Please define FIREBASE_SERVICE_ACCOUNT in .env")
  else if negb (env_set resendApiKey)
  then Throw (mkError "Error" "Please define RESEND_API_KEY in .env")
  else if negb (env_set senderEmail)
  then Throw (mkError "Error" "Please define SENDER_EMAIL in .env")
  else if negb (env_set stripeSecretKey)
  then Throw (mkError "Error" "Please define STRIPE_SECRET_KEY in .env")
  else Ok (app_config (default "" senderEmail) nodeEnv
             (default "" (env !! "SUBSCRIPTION_PRICE_ID"))
             (env !! "FRONTEND_URL")).

(** The same for the variant without the identity provider. *)
Definition check_environment_plain (env : gmap string string) : Result Config :=
  let resendApiKey := env !! "RESEND_API_KEY" in
  let stripeSecretKey := env !! "STRIPE_SECRET_KEY" in
  let senderEmail := env !! "SENDER_EMAIL" in
  if negb (env_set resendApiKey)
  then Throw (mkError "Error" "Please define RESEND_API_KEY in .env")
  else if negb (env_set senderEmail)
  then Throw (mkError "Error" "Please define SENDER_EMAIL in .env")
  else if negb (env_set stripeSecretKey)
  then Throw (mkError "Error" "Please define STRIPE_SECRET_KEY in .env")
  else Ok (plain_config (default "" senderEmail)).

(** ** Further notions used in the statements *)

Definition is_string (v : JsVal) : bool :=
  match v with JStr _ => true | _ => false end.

Definition is_coupon_create (c : Call) : bool :=
  match c with stripe_coupons_create _ => true | _ => false end.

(** Every response a computation can complete with satisfies [P]. *)
Definition answers_with {W : Type} (P : Response → Prop) (m : M W Response) : Prop :=
  ∀ s r s', m s = (Ok r, s') → P r.

(** The calls a run added to the log. *)
Definition new_calls {W : Type} (before after : St W) : list Call :=
  drop (length (calls before)) (calls after).

(** A Stripe with one customer, subscribed to a product of the given
    name; every other call rejects. *)
Definition subscribed_provider (items : list SubscriptionItem)
    (name : option string) : Provider unit := λ c,
  match c return unit → Result (Reply c) * unit with
  | stripe_subscriptions_list _ => λ w,
      (Ok [mkSubscription "sub_1" "active" items], w)
  | stripe_prices_retrieve _ => λ w, (Ok (mkPrice "prod_1"), w)
  | stripe_products_retrieve _ => λ w, (Ok (mkProduct name), w)
  | _ => λ w, (Throw (mkError "Error" "connection refused"), w)
  end.

(** * Properties *)

(** ** Rounding to doubles *)

Lemma pow2_pos (e : Z) : (0 < pow2 e)%Q.
Proof. by apply Qpower_0_lt. Qed.

Lemma pow2_add (a b : Z) : (pow2 (a + b) == pow2 a * pow2 b)%Q.
Proof. by apply Qpower_plus. Qed.

Lemma pow2_nonneg_Z (e : Z) : (0 <= e)%Z → (pow2 e == inject_Z (2 ^ e))%Q.
Proof. intros He. unfold pow2. by rewrite Zpower_Qpower. Qed.

Lemma pow2_log2 (n : Z) :
  (0 < n)%Z → (pow2 (Z.log2 n) <= inject_Z n ∧ inject_Z n < pow2 (Z.log2 n + 1))%Q.
Proof.
  intros Hn. pose proof (Z.log2_spec n Hn) as [Hlo Hhi].
  pose proof (Z.log2_nonneg n).
  rewrite !pow2_nonneg_Z by lia. split.
  - by rewrite <- Zle_Qle.
  - rewrite <- Zlt_Qlt. by rewrite Z.add_1_r.
Qed.

(** [log2_floor] finds the binade of a positive number. *)
Lemma log2_floor_spec (q : Q) :
  (0 < q)%Q →
  (pow2 (log2_floor q) <= q ∧ q < pow2 (log2_floor q + 1))%Q.
Proof.
  intros Hq. destruct q as [n d].
  assert (Hn : (0 < n)%Z) by (unfold Qlt in Hq; cbn in Hq; lia).
  pose proof (pow2_log2 n Hn) as [Hn1 Hn2].
  pose proof (pow2_log2 (Zpos d) eq_refl) as [Hd1 Hd2].
  assert (Hqd : (inject_Z n == (n # d) * inject_Z (Zpos d))%Q).
  { unfold Qeq. cbn. lia. }
  set (a := Z.log2 n) in *. set (b := Z.log2 (Zpos d)) in *.
  unfold log2_floor. cbn [Qnum Qden]. fold a b.
  pose proof (pow2_pos b) as Hb. pose proof (pow2_pos (b + 1)) as Hb1.
  assert (Hd0 : (0 < inject_Z (Zpos d))%Q) by done.
  assert (Hup : ((n # d) < pow2 (a - b + 1))%Q).
  { apply (Qmult_lt_r _ _ (inject_Z (Zpos d)) Hd0). rewrite <- Hqd.
    apply Qlt_le_trans with (y := pow2 (a + 1)); [done|].
    replace (a + 1)%Z with ((a - b + 1) + b)%Z by lia. rewrite pow2_add.
    apply Qmult_le_l; [apply pow2_pos | done]. }
  assert (Hdown : (pow2 (a - b - 1) <= (n # d))%Q).
  { apply Qlt_le_weak.
    apply (Qmult_lt_r _ _ (pow2 (b + 1)) Hb1). rewrite <- pow2_add.
    replace (a - b - 1 + (b + 1))%Z with a by lia.
    apply Qle_lt_trans with (y := inject_Z n); [done|]. rewrite Hqd.
    by apply Qmult_lt_l. }
  destruct (Qle_bool (pow2 (a - b)) (n # d)) eqn:Hc.
  - apply Qle_bool_iff in Hc. by split.
  - split; [done|]. replace (a - b - 1 + 1)%Z with (a - b)%Z by lia.
    apply Qnot_le_lt. intros H. apply Qle_bool_iff in H. congruence.
Qed.

Lemma log2_floor_le_0 (q : Q) : (0 < q)%Q → (q <= 1)%Q → (log2_floor q <= 0)%Z.
Proof.
  intros Hpos Hle. unfold log2_floor.
  assert (Hk : (Z.log2 (Qnum q) - Z.log2 (Zpos (Qden q)) <= 0)%Z).
  { assert (Qnum q <= Zpos (Qden q))%Z
      by (unfold Qle in Hle; cbn in Hle; lia).
    pose proof (Z.log2_le_mono _ _ H). lia. }
  destruct (Qle_bool _ q); lia.
Qed.

(** [round_half_even] is within one half of its argument. *)
Lemma round_half_even_nearest (x : Q) :
  (inject_Z (round_half_even x) - (1 # 2) <= x
   ∧ x <= inject_Z (round_half_even x) + (1 # 2))%Q.
Proof.
  unfold round_half_even.
  pose proof (Qfloor_le x) as Hlo. pose proof (Qlt_floor x) as Hhi.
  set (f := Qfloor x) in *. rewrite inject_Z_plus in Hhi.
  change (inject_Z 1) with 1%Q in Hhi.
  destruct (x - inject_Z f ?= 1 # 2)%Q eqn:Hc.
  - apply Qeq_alt in Hc.
    destruct (Z.even f); rewrite ?inject_Z_plus;
      change (inject_Z 1) with 1%Q; lra.
  - apply Qlt_alt in Hc. lra.
  - apply Qgt_alt in Hc. rewrite inject_Z_plus.
    change (inject_Z 1) with 1%Q. lra.
Qed.

Lemma round_half_even_bounds (x : Q) (K : Z) :
  (0 <= x)%Q → (x <= inject_Z K)%Q →
  (0 <= round_half_even x <= K)%Z.
Proof.
  intros Hlo Hhi.
  assert (Hf0 : (0 <= Qfloor x)%Z).
  { change 0%Z with (Qfloor 0). by apply Qfloor_resp_le. }
  assert (HfK : (Qfloor x <= K)%Z).
  { rewrite <- (Qfloor_Z K). by apply Qfloor_resp_le. }
  unfold round_half_even.
  destruct (Z.eq_dec (Qfloor x) K) as [Heq|Hne].
  - assert (Hfrac : (x - inject_Z (Qfloor x) ?= 1 # 2)%Q = Lt).
    { apply Qlt_alt. rewrite Heq.
      apply Qle_lt_trans with (y := 0%Q); [|reflexivity].
      apply (Qplus_le_l _ _ (inject_Z K)). ring_simplify. exact Hhi. }
    rewrite Hfrac. lia.
  - destruct (x - inject_Z (Qfloor x) ?= 1 # 2)%Q; [destruct (Z.even _)|..]; lia.
Qed.

(** The rounded value of a positive number is a multiple of the spacing
    of the doubles around it, at most half a spacing away from it. *)
Lemma round_positive_nearest (q : Q) :
  (0 < q)%Q →
  let e := Z.max (log2_floor q - 52) (-1074) in
  ∃ n : Z,
    (round_positive q == inject_Z n * pow2 e
     ∧ round_positive q - pow2 e / 2 <= q
     ∧ q <= round_positive q + pow2 e / 2)%Q.
Proof.
  intros Hq e. unfold round_positive. fold e.
  exists (round_half_even (q / pow2 e)). split; [reflexivity|].
  pose proof (round_half_even_nearest (q / pow2 e)) as [Hlo Hhi].
  pose proof (pow2_pos e) as He.
  set (n := inject_Z (round_half_even (q / pow2 e))) in *.
  assert (Hx : (q == q / pow2 e * pow2 e)%Q).
  { field. intros H. rewrite H in He. by apply Qlt_irrefl in He. }
  assert (H1 : ((n - (1 # 2)) * pow2 e <= q / pow2 e * pow2 e)%Q)
    by (by apply Qmult_le_compat_r; [|apply Qlt_le_weak]).
  assert (H2 : (q / pow2 e * pow2 e <= (n + (1 # 2)) * pow2 e)%Q)
    by (by apply Qmult_le_compat_r; [|apply Qlt_le_weak]).
  rewrite <- Hx in H1, H2. split.
  - assert (E : (n * pow2 e - pow2 e / 2 == (n - (1 # 2)) * pow2 e)%Q) by field.
    by rewrite E.
  - assert (E : (n * pow2 e + pow2 e / 2 == (n + (1 # 2)) * pow2 e)%Q) by field.
    by rewrite E.
Qed.

(** Dividing a percentage by 100 gives a fraction, also after rounding. *)
Lemma Number_divide_fraction (p : Q) :
  (0 <= p <= 100)%Q → (0 <= Number_divide p 100 <= 1)%Q.
Proof.
  intros [Hlo Hhi]. unfold Number_divide, Number_round.
  assert (Hq0 : (0 <= p / 100)%Q).
  { apply Qle_shift_div_l; [reflexivity|]. by rewrite Qmult_0_l. }
  assert (Hq1 : (p / 100 <= 1)%Q).
  { apply Qle_shift_div_r; [reflexivity|]. by rewrite Qmult_1_l. }
  set (q := (p / 100)%Q) in *.
  destruct (q ?= 0)%Q eqn:Hc.
  - split; [apply Qle_refl | done].
  - apply Qlt_alt in Hc. by apply Qle_not_lt in Hq0.
  - apply Qgt_alt in Hc. unfold round_positive.
    pose proof (log2_floor_le_0 q Hc Hq1) as HE.
    set (e := Z.max (log2_floor q - 52) (-1074)).
    assert (He : (e < 0)%Z) by lia.
    pose proof (pow2_pos e) as Hpe.
    assert (Hinv : (pow2 e * inject_Z (2 ^ (- e)) == 1)%Q).
    { rewrite <- pow2_nonneg_Z by lia. rewrite <- pow2_add.
      by replace (e + - e)%Z with 0%Z by lia. }
    assert (Hx : (q / pow2 e == q * inject_Z (2 ^ (- e)))%Q).
    { apply (Qmult_inj_r _ _ (pow2 e)).
      - intros H. rewrite H in Hpe. by apply Qlt_irrefl in Hpe.
      - rewrite <- Qmult_assoc, (Qmult_comm (inject_Z _)), Hinv. field.
        intros H. rewrite H in Hpe. by apply Qlt_irrefl in Hpe. }
    assert (HK : (0 < inject_Z (2 ^ (- e)))%Q).
    { rewrite <- pow2_nonneg_Z by lia. apply pow2_pos. }
    destruct (round_half_even_bounds (q / pow2 e) (2 ^ (- e))) as [Hn0 HnK].
    + rewrite Hx. apply Qmult_le_0_compat; [done | by apply Qlt_le_weak].
    + rewrite Hx. rewrite <- (Qmult_1_l (inject_Z (2 ^ (- e)))) at 2.
      apply Qmult_le_compat_r; [done | by apply Qlt_le_weak].
    + set (n := round_half_even _) in *. split.
      * apply Qmult_le_0_compat; [|by apply Qlt_le_weak].
        by rewrite Zle_Qle in Hn0.
      * rewrite <- Hinv, (Qmult_comm (pow2 e)).
        apply Qmult_le_compat_r; [|by apply Qlt_le_weak].
        by rewrite Zle_Qle in HnK.
Qed.

(** A percentage of 33.3 divided by 100 is the double
    0.33299999999999996, not the double nearest to 333/1000. *)
Lemma Number_divide_one_third :
  (Number_divide (Number_round (333 # 10)) 100
   == 1499698675914375 # 4503599627370496)%Q
  ∧ ¬ (Number_divide (Number_round (333 # 10)) 100
       == Number_round (333 # 1000))%Q.
Proof.
  split.
  - apply Qeq_bool_iff. vm_compute. reflexivity.
  - intros H. apply Qeq_bool_iff in H. vm_compute in H. discriminate H.
Qed.

(** On the percentages 0.0, 0.1, ..., 100.0 the rounding and the division
    agree with the binary64 operations of the kernel. *)
Lemma Number_divide_agrees_with_binary64 :
  forallb
    (λ k, Qeq_bool (Number_round (Z.of_nat k # 10)) (float_value (tenths k))
          && Qeq_bool (Number_divide (float_value (tenths k)) 100)
                      (float_value (tenths k / 100)))
    (seq 0 1001) = true.
Proof. vm_compute. reflexivity. Qed.

(** ** The resolver *)

Section Resolver.
Context {A : Type} (p : A → bool).

Lemma find_filter_same (l : list A) :
  List.find p (List.filter p l) = List.find p l.
Proof.
  induction l as [|x l IH]; simpl; [done|].
  destruct (p x) eqn:E; simpl; [by rewrite E | exact IH].
Qed.

Lemma find_first_match (l : list A) (c : A) :
  List.find p l = Some c → first_match (λ x, p x = true) l c.
Proof.
  induction l as [|x l IH]; simpl; [done|].
  destruct (p x) eqn:E.
  - intros [= <-]. exists [], l. by repeat split.
  - intros H. destruct (IH H) as (l1 & l2 & -> & Hc & Hl1).
    exists (x :: l1), l2. repeat split; [done|].
    constructor; [congruence | done].
Qed.

Lemma find_none_forall (l : list A) :
  List.find p l = None → Forall (λ x, p x ≠ true) l.
Proof.
  induction l as [|x l IH]; simpl; [constructor|].
  destruct (p x) eqn:E; [done|].
  intros H. constructor; [congruence | auto].
Qed.

Lemma find_some_of_exists (l : list A) :
  (∃ x, x ∈ l ∧ p x = true) → ∃ c, List.find p l = Some c.
Proof.
  intros (x & Hin & Hp).
  destruct (List.find p l) as [c|] eqn:E; [eauto|].
  apply find_none_forall in E. rewrite Forall_forall in E.
  by destruct (E x Hin).
Qed.

Lemma find_none_of_not_exists (l : list A) :
  ¬ (∃ x, x ∈ l ∧ p x = true) → List.find p l = None.
Proof.
  intros Hno. destruct (List.find p l) as [c|] eqn:E; [|done].
  destruct Hno. exists c. apply find_first_match in E.
  destruct E as (l1 & l2 & -> & Hc & _). split; [|done].
  apply elem_of_app. right. apply elem_of_cons. by left.
Qed.
End Resolver.

Lemma getDiscount_find coupons email domain :
  getDiscount coupons email domain =
    match List.find (allowed_email_is email) coupons with
    | Some c => Some c
    | None => List.find (allowed_domain_is domain) coupons
    end.
Proof.
  unfold getDiscount. rewrite !find_filter_same.
  destruct (List.find (allowed_email_is email) coupons); [done|].
  by destruct (List.find (allowed_domain_is domain) coupons).
Qed.

(** Claim C1.  For every coupon list, requester email and derived domain:
    if some coupon's [allowed_email] metadata equals the email,
    [getDiscount] returns the first such coupon in list order; otherwise,
    if some coupon's [allowed_domain] metadata equals the domain, it
    returns the first such coupon; otherwise it returns none.  Equality
    is JavaScript's [===]: an absent key is [undefined], which equals an
    [undefined] domain. *)
Theorem getDiscount_priority (coupons : list Coupon) (email : string)
    (domain : option string) :
  let by_email c := metadata c !! "allowed_email" = Some email in
  let by_domain c := metadata c !! "allowed_domain" = domain in
  ((∃ c, c ∈ coupons ∧ by_email c) →
     ∃ c, getDiscount coupons email domain = Some c
          ∧ first_match by_email coupons c)
  ∧ (¬ (∃ c, c ∈ coupons ∧ by_email c) →
     (∃ c, c ∈ coupons ∧ by_domain c) →
     ∃ c, getDiscount coupons email domain = Some c
          ∧ first_match by_domain coupons c)
  ∧ (¬ (∃ c, c ∈ coupons ∧ by_email c) →
     ¬ (∃ c, c ∈ coupons ∧ by_domain c) →
     getDiscount coupons email domain = None).
Proof.
  intros by_email by_domain. rewrite getDiscount_find.
  assert (He : ∀ c, allowed_email_is email c = true ↔ by_email c)
    by (intros c; apply bool_decide_eq_true).
  assert (Hd : ∀ c, allowed_domain_is domain c = true ↔ by_domain c)
    by (intros c; apply bool_decide_eq_true).
  assert (Hfm : ∀ (q : Coupon → bool) (Q : Coupon → Prop) c,
             (∀ x, q x = true ↔ Q x) →
             first_match (λ x, q x = true) coupons c → first_match Q coupons c).
  { intros q Q c HqQ (l1 & l2 & -> & Hc & Hl1). exists l1, l2.
    repeat split; [by apply HqQ|].
    eapply Forall_impl; [exact Hl1|]. intros x Hx HQ. by apply Hx, HqQ. }
  split; [|split].
  - intros (c & Hin & Hc).
    destruct (find_some_of_exists (allowed_email_is email) coupons) as [c' E].
    { exists c. split; [done | by apply He]. }
    rewrite E. exists c'. split; [done|].
    eapply Hfm; [exact He|]. by apply find_first_match.
  - intros Hne (c & Hin & Hc).
    rewrite (find_none_of_not_exists (allowed_email_is email) coupons).
    2:{ intros (x & Hx & Hpx). apply Hne. exists x. split; [done | by apply He]. }
    destruct (find_some_of_exists (allowed_domain_is domain) coupons) as [c' E].
    { exists c. split; [done | by apply Hd]. }
    exists c'. split; [done|].
    eapply Hfm; [exact Hd|]. by apply find_first_match.
  - intros Hne Hnd.
    rewrite (find_none_of_not_exists (allowed_email_is email) coupons).
    2:{ intros (x & Hx & Hpx). apply Hne. exists x. split; [done | by apply He]. }
    apply find_none_of_not_exists.
    intros (x & Hx & Hpx). apply Hnd. exists x. split; [done | by apply Hd].
Qed.

(** The specification's example: an e-mail coupon for "a@x.com" listed
    before a domain coupon for "x.com". *)
Lemma getDiscount_priority_witness :
  ∃ c, getDiscount [email_coupon_a; domain_coupon_x] "a@x.com" (Some "x.com")
         = Some c
       ∧ first_match (λ c, metadata c !! "allowed_email" = Some "a@x.com")
           [email_coupon_a; domain_coupon_x] c.
Proof.
  apply (getDiscount_priority [email_coupon_a; domain_coupon_x] "a@x.com"
           (Some "x.com")).
  exists email_coupon_a. split; [left | reflexivity].
Defined.

(** ** Running handler computations *)

Section Run.
Context {W : Type}.

Lemma bind_run {A B} (m : M W A) (f : A → M W B) (s : St W) :
  (m ≫= f) s =
    match m s with
    | (Ok a, s') => f a s'
    | (Throw e, s') => (Throw e, s')
    end.
Proof. reflexivity. Qed.

Lemma bind_ok {A B} (m : M W A) (f : A → M W B) s a s' :
  m s = (Ok a, s') → (m ≫= f) s = f a s'.
Proof. intros H. by rewrite bind_run, H. Qed.

Lemma bind_throw {A B} (m : M W A) (f : A → M W B) s e s' :
  m s = (Throw e, s') → (m ≫= f) s = (Throw e, s').
Proof. intros H. by rewrite bind_run, H. Qed.

Lemma bind_lift_ok {A B} (r : Result A) (f : A → M W B) s a :
  r = Ok a → (lift r ≫= f) s = f a s.
Proof. by intros ->. Qed.

Lemma bind_inv_ok {A B} (m : M W A) (f : A → M W B) s b s' :
  (m ≫= f) s = (Ok b, s') →
  ∃ a s1, m s = (Ok a, s1) ∧ f a s1 = (Ok b, s').
Proof.
  rewrite bind_run. destruct (m s) as [[a|e] s1]; [eauto | done].
Qed.

Lemma call_run (provider : Provider W) (c : Call) (s : St W) r w :
  provider c (world s) = (r, w) →
  call provider c s = (r, mkSt w (calls s ++ [c])).
Proof. unfold call. by intros ->. Qed.

Lemma try_catch_ok {A} (m : M W A) h s a s' :
  m s = (Ok a, s') → try_catch m h s = (Ok a, s').
Proof. unfold try_catch. by intros ->. Qed.

Lemma try_catch_throw {A} (m : M W A) h s e s' :
  m s = (Throw e, s') → try_catch m h s = h e s'.
Proof. unfold try_catch. by intros ->. Qed.
End Run.

(** A property read that succeeded once succeeds for every key. *)
Lemma js_get_readable (v : JsVal) (k : string) :
  readable v → ∃ x, js_get v k = Ok x.
Proof. intros [??]. destruct v; simpl; eauto; done. Qed.

Lemma js_get_ok_readable (v : JsVal) (k : string) (x : JsVal) :
  js_get v k = Ok x → readable v.
Proof. by destruct v; simpl; intros; split. Qed.

Lemma js_destructure_get (source : string) (v : JsVal) (k : string) (x : JsVal) :
  js_get v k = Ok x → js_destructure source v k = Ok x.
Proof. by destruct v. Qed.

Lemma js_get_request (k : string) (v : JsVal) : js_get (request k v) k = Ok v.
Proof. unfold request, js_get. by rewrite lookup_singleton_eq. Qed.

(** ** Input validation *)

(** Claim C7.  In both list-accepting operations (invitation e-mails and
    bulk coupon import), a request whose list field is missing, is not a
    list, or is the empty list is answered 400 with the operation's fixed
    message, and the state is the one the handler started in: no vendor
    was called and the world is unchanged. *)
Theorem list_guard_rejects_before_any_call {W : Type} (provider : Provider W)
    (Number_toString : Q → string) (cfg : Config) (body v : JsVal) (s : St W) :
  v = JUndefined ∨ Array_isArray v = false ∨ v = JArr [] →
  (js_get body "emailObjects" = Ok v →
     post_send_email provider Number_toString cfg body s =
       (Ok (mkResponse 400
              (json_error "Please provide list of emails to send email to")), s))
  ∧ (js_get body "coupons" = Ok v →
     post_coupons_bulk provider Number_toString body s =
       (Ok (mkResponse 400 (json_error "Please provide an array of coupons")), s)).
Proof.
  intros Hv.
  assert (Hguard : negb (Array_isArray v) = true ∨ elements_of v = []).
  { destruct Hv as [-> | [-> | ->]]; cbn; auto. }
  split; intros Hget.
  - unfold post_send_email. rewrite (bind_lift_ok _ _ _ _ Hget).
    destruct Hguard as [-> | ->]; [done|]. cbn. by rewrite orb_true_r.
  - unfold post_coupons_bulk. erewrite try_catch_ok; [done|].
    rewrite (bind_lift_ok _ _ _ _ (js_destructure_get _ _ _ _ Hget)).
    destruct Hguard as [-> | ->]; [done|]. cbn. by rewrite orb_true_r.
Qed.

(** A request without the field, one with a string in its place, and one
    with an empty list. *)
Lemma list_guard_rejects_before_any_call_witness :
  post_send_email memory_provider integer_toString (plain_config "noreply@x.com")
    (JObj ∅) (mkSt [] []) =
    (Ok (mkResponse 400
           (json_error "Please provide list of emails to send email to")),
     mkSt [] [])
  ∧ post_coupons_bulk memory_provider integer_toString
      (request "coupons" (JArr [])) (mkSt [] []) =
    (Ok (mkResponse 400 (json_error "Please provide an array of coupons")),
     mkSt [] []).
Proof.
  split.
  - apply (list_guard_rejects_before_any_call memory_provider integer_toString
             (plain_config "noreply@x.com") (JObj ∅) JUndefined (mkSt [] [])).
    + left. reflexivity.
    + reflexivity.
  - apply (list_guard_rejects_before_any_call memory_provider integer_toString
             (plain_config "noreply@x.com") (request "coupons" (JArr []))
             (JArr []) (mkSt [] [])).
    + right. right. reflexivity.
    + reflexivity.
Defined.

(** ** Subscription status *)

(** Claim C8.  When Stripe lists no subscription for the customer, the
    status query answers 200 with [hasSubscription] false, [status],
    [currentPeriodEnd] and [planName] null and no [subscriptionId], and
    the only vendor call it made is that listing: no price and no
    product was retrieved. *)
Theorem subscription_status_without_subscription {W : Type}
    (provider : Provider W) (customerId : string) (s : St W) (w : W) :
  provider (stripe_subscriptions_list customerId) (world s) = (Ok [], w) →
  let out := get_subscription_status provider customerId s in
  out.1 = Ok (mkResponse 200 (json_subscription false None None None None))
  ∧ calls out.2 = calls s ++ [stripe_subscriptions_list customerId]
  ∧ world out.2 = w
  ∧ Forall (λ c, (∀ p, c ≠ stripe_prices_retrieve p)
                 ∧ (∀ p, c ≠ stripe_products_retrieve p))
      (drop (length (calls s)) (calls out.2)).
Proof.
  intros Hlist out.
  assert (Hout : out = (Ok (mkResponse 200 (json_subscription false None None None None)),
                        mkSt w (calls s ++ [stripe_subscriptions_list customerId]))).
  { subst out. unfold get_subscription_status.
    erewrite try_catch_ok; [done|].
    by rewrite (bind_ok _ _ _ _ _ (call_run _ _ _ _ _ Hlist)). }
  rewrite Hout. cbn [fst snd calls world]. repeat split.
  rewrite drop_app_length. by repeat constructor.
Qed.

Lemma subscription_status_without_subscription_witness :
  let out := get_subscription_status memory_provider "cus_1" (mkSt [] []) in
  out.1 = Ok (mkResponse 200 (json_subscription false None None None None))
  ∧ calls out.2 = [] ++ [stripe_subscriptions_list "cus_1"]
  ∧ world out.2 = []
  ∧ Forall (λ c, (∀ p, c ≠ stripe_prices_retrieve p)
                 ∧ (∀ p, c ≠ stripe_products_retrieve p))
      (drop 0 (calls out.2)).
Proof.
  apply (subscription_status_without_subscription memory_provider "cus_1"
           (mkSt [] []) []).
  reflexivity.
Defined.

(** ** Discount preview *)

(** What [POST /discounts] does once the e-mail is a string and the
    coupons were listed. *)
Lemma post_discounts_run {W : Type} (provider : Provider W) (body : JsVal)
    (email : string) (coupons : list Coupon) (s : St W) (w : W) :
  js_get body "email" = Ok (JStr email) →
  provider stripe_coupons_list (world s) = (Ok coupons, w) →
  post_discounts provider body s =
    (Ok (mkResponse 200 (json_discount
       match getDiscount coupons email (emailDomain email) with
       | None => None
       | Some c =>
           if bool_decide (max_redemptions c = Some (times_redeemed c))
           then None
           else Some (mkDiscountInfo (Number_divide (percent_off c) 100)
                        (metadata c !! "allowed_domain"))
       end)),
     mkSt w (calls s ++ [stripe_coupons_list])).
Proof.
  intros Hget Hlist. unfold post_discounts.
  rewrite (bind_lift_ok _ _ _ _ (js_destructure_get _ _ _ _ Hget)). cbn [js_split_at].
  erewrite bind_lift_ok; [|reflexivity].
  rewrite (bind_ok _ _ _ _ _ (call_run _ _ _ _ _ Hlist)).
  fold (emailDomain email).
  destruct (getDiscount coupons email (emailDomain email)) as [c|]; [|done].
  by destruct (bool_decide (max_redemptions c = Some (times_redeemed c))).
Qed.

(** Claim C4, as the code has it.  For every listed coupon list and
    requester e-mail, the preview answers 200 with a null discount when
    the resolver finds no coupon, and also when the resolved coupon's
    redemption count equals its maximum; in every other case (a coupon
    redeemed beyond its maximum included) the discount is the coupon's
    percent-off divided by 100 as doubles divide, which lies in [0,1]
    for a percent-off within 0..100, together with the coupon's
    [allowed_domain] metadata (left out of the object when the coupon
    has none, as for an e-mail coupon). *)
Theorem discount_preview {W : Type} (provider : Provider W) (body : JsVal)
    (email : string) (coupons : list Coupon) (s : St W) (w : W) :
  js_get body "email" = Ok (JStr email) →
  provider stripe_coupons_list (world s) = (Ok coupons, w) →
  ∃ preview,
    (post_discounts provider body s).1 =
      Ok (mkResponse 200 (json_discount preview))
    ∧ (getDiscount coupons email (emailDomain email) = None → preview = None)
    ∧ (∀ c, getDiscount coupons email (emailDomain email) = Some c →
         max_redemptions c = Some (times_redeemed c) → preview = None)
    ∧ (∀ c, getDiscount coupons email (emailDomain email) = Some c →
         max_redemptions c ≠ Some (times_redeemed c) →
         preview = Some (mkDiscountInfo (Number_divide (percent_off c) 100)
                           (metadata c !! "allowed_domain"))
         ∧ ((0 <= percent_off c <= 100)%Q →
              (0 <= Number_divide (percent_off c) 100 <= 1)%Q)).
Proof.
  intros Hget Hlist. rewrite (post_discounts_run _ _ _ _ _ _ Hget Hlist).
  eexists. split; [reflexivity|].
  destruct (getDiscount coupons email (emailDomain email)) as [c|].
  - split; [done|]. split; intros c' [= <-] Hmax.
    + by rewrite bool_decide_eq_true_2.
    + rewrite bool_decide_eq_false_2 by done.
      split; [done | apply Number_divide_fraction].
  - by repeat split.
Qed.

Lemma discount_preview_witness :
  ∃ preview,
    (post_discounts memory_provider (request "email" (JStr "b@x.com"))
       (mkSt [email_coupon_a; domain_coupon_x] [])).1 =
      Ok (mkResponse 200 (json_discount preview))
    ∧ preview = Some (mkDiscountInfo (Number_divide 20 100) (Some "x.com")).
Proof.
  destruct (discount_preview memory_provider (request "email" (JStr "b@x.com"))
              "b@x.com" [email_coupon_a; domain_coupon_x]
              (mkSt [email_coupon_a; domain_coupon_x] [])
              [email_coupon_a; domain_coupon_x])
    as (preview & Hresp & _ & _ & Hsome).
  - reflexivity.
  - reflexivity.
  - exists preview. split; [exact Hresp|].
    apply (Hsome domain_coupon_x); [reflexivity | discriminate].
Defined.

(** The claim as stated fails: a coupon redeemed 6 times with a maximum
    of 5 has reached its maximum, and the preview still answers with its
    discount. *)
Lemma discount_preview_not_null_beyond_maximum :
  ¬ (∀ (coupons : list Coupon) (email : string) (c : Coupon) (m : Z),
       getDiscount coupons email (emailDomain email) = Some c →
       max_redemptions c = Some m →
       (m <= times_redeemed c)%Z →
       (post_discounts memory_provider (request "email" (JStr email))
          (mkSt coupons [])).1 = Ok (mkResponse 200 (json_discount None))).
Proof.
  intros H.
  specialize (H [overdrawn_coupon_x] "b@x.com" overdrawn_coupon_x 5%Z
                eq_refl eq_refl).
  assert (Hle : (5 <= times_redeemed overdrawn_coupon_x)%Z) by (cbn; lia).
  specialize (H Hle). vm_compute in H. discriminate H.
Qed.

(** Claim C10.  The preview's exhaustion test is the strict equality of
    [max_redemptions] and [times_redeemed]: the answer for a resolved
    coupon is null exactly when the two are equal.  So a coupon without
    a maximum is never treated as exhausted, and a coupon redeemed more
    often than its maximum is not treated as exhausted either: both are
    returned as the applicable discount. *)
Theorem preview_exhaustion_is_strict_equality {W : Type} (provider : Provider W)
    (body : JsVal) (email : string) (coupons : list Coupon) (c : Coupon)
    (s : St W) (w : W) :
  js_get body "email" = Ok (JStr email) →
  provider stripe_coupons_list (world s) = (Ok coupons, w) →
  getDiscount coupons email (emailDomain email) = Some c →
  let applicable :=
    Ok (mkResponse 200 (json_discount (Some
          (mkDiscountInfo (Number_divide (percent_off c) 100)
             (metadata c !! "allowed_domain"))))) in
  let response := (post_discounts provider body s).1 in
  (response = Ok (mkResponse 200 (json_discount None))
     ↔ max_redemptions c = Some (times_redeemed c))
  ∧ (max_redemptions c ≠ Some (times_redeemed c) → response = applicable)
  ∧ (max_redemptions c = None → response = applicable)
  ∧ (∀ m, max_redemptions c = Some m → (m < times_redeemed c)%Z →
       response = applicable).
Proof.
  intros Hget Hlist Hres applicable response. subst applicable response.
  rewrite (post_discounts_run _ _ _ _ _ _ Hget Hlist), Hres. cbn [fst].
  assert (Hne : max_redemptions c ≠ Some (times_redeemed c) →
                bool_decide (max_redemptions c = Some (times_redeemed c)) = false)
    by apply bool_decide_eq_false_2.
  split; [|split; [|split]].
  - destruct (bool_decide_reflect (max_redemptions c = Some (times_redeemed c)));
      split; intros; congruence.
  - intros H. by rewrite Hne.
  - intros H. rewrite Hne; [done | by rewrite H].
  - intros m H Hlt. rewrite Hne; [done|]. rewrite H. intros [= ->]. lia.
Qed.

Lemma preview_exhaustion_is_strict_equality_witness :
  (post_discounts memory_provider (request "email" (JStr "b@x.com"))
     (mkSt [overdrawn_coupon_x] [])).1 =
    Ok (mkResponse 200 (json_discount (Some (mkDiscountInfo (Number_divide 20 100) (Some "x.com")))))
  ∧ (post_discounts memory_provider (request "email" (JStr "b@x.com"))
       (mkSt [unlimited_coupon_x] [])).1 =
    Ok (mkResponse 200 (json_discount (Some (mkDiscountInfo (Number_divide 20 100) (Some "x.com"))))).
Proof.
  split.
  - apply (preview_exhaustion_is_strict_equality memory_provider
             (request "email" (JStr "b@x.com")) "b@x.com" [overdrawn_coupon_x]
             overdrawn_coupon_x (mkSt [overdrawn_coupon_x] []) [overdrawn_coupon_x])
      with (m := 5%Z); reflexivity.
  - apply (preview_exhaustion_is_strict_equality memory_provider
             (request "email" (JStr "b@x.com")) "b@x.com" [unlimited_coupon_x]
             unlimited_coupon_x (mkSt [unlimited_coupon_x] []) [unlimited_coupon_x]);
      reflexivity.
Defined.

(** ** Checkout session *)

(** Claim C6.  For every requester e-mail and listed coupon list, the
    checkout handler asks Stripe for a session whose [discounts] are set
    if and only if [getDiscount] resolved a coupon, and then hold exactly
    that coupon's id.  The coupon's [max_redemptions] and
    [times_redeemed] play no part: the statement holds for every resolved
    coupon, exhausted or not. *)
Theorem checkout_attaches_resolved_coupon {W : Type} (provider : Provider W)
    (cfg : Config) (body : JsVal) (email : string) (coupons : list Coupon)
    (s : St W) (w : W) :
  js_get body "email" = Ok (JStr email) →
  provider stripe_coupons_list (world s) = (Ok coupons, w) →
  ∃ params,
    calls (post_create_checkout_session provider cfg body s).2 =
      calls s ++ [stripe_coupons_list; stripe_checkout_sessions_create params]
    ∧ (is_Some (discounts params)
         ↔ is_Some (getDiscount coupons email (emailDomain email)))
    ∧ (∀ c, getDiscount coupons email (emailDomain email) = Some c →
         discounts params = Some [id c])
    ∧ (getDiscount coupons email (emailDomain email) = None →
         discounts params = None).
Proof.
  intros Hget Hlist. unfold post_create_checkout_session.
  rewrite (bind_lift_ok _ _ _ _ (js_destructure_get _ _ _ _ Hget)).
  destruct (js_get_readable body "customerId") as [customerId Hcust];
    [by eapply js_get_ok_readable|].
  rewrite (bind_lift_ok _ _ _ _ (js_destructure_get _ _ _ _ Hcust)). cbn [js_split_at].
  erewrite bind_lift_ok; [|reflexivity].
  rewrite (bind_ok _ _ _ _ _ (call_run _ _ _ _ _ Hlist)).
  fold (emailDomain email).
  set (d := getDiscount coupons email (emailDomain email)).
  match goal with
  | |- context [stripe_checkout_sessions_create ?p] => exists p
  end.
  split.
  - unfold try_catch. rewrite bind_run. unfold call. cbn [world calls].
    match goal with
    | |- context [provider ?c w] => destruct (provider c w) as [[session|e] w2]
    end; cbn; by rewrite <- app_assoc.
  - destruct d as [c|]; cbn [discounts].
    + split; [by split; eauto|]. split; [by intros c' [= <-] | done].
    + split; [by split; intros [? ?]|]. by split.
Qed.

Lemma checkout_attaches_resolved_coupon_witness :
  ∃ params,
    calls (post_create_checkout_session memory_provider
             (plain_config "noreply@x.com")
             (request "email" (JStr "b@x.com"))
             (mkSt [exhausted_coupon_x] [])).2 =
      [] ++ [stripe_coupons_list; stripe_checkout_sessions_create params]
    ∧ discounts params = Some ["c_used_up"].
Proof.
  destruct (checkout_attaches_resolved_coupon memory_provider
              (plain_config "noreply@x.com") (request "email" (JStr "b@x.com"))
              "b@x.com" [exhausted_coupon_x] (mkSt [exhausted_coupon_x] [])
              [exhausted_coupon_x])
    as (params & Hcalls & _ & Hsome & _).
  - reflexivity.
  - reflexivity.
  - exists params. split; [exact Hcalls|].
    apply (Hsome exhausted_coupon_x). reflexivity.
Defined.

(** ** Vendor failures *)

(** [POST /send-email] awaits the batch outside any [try]. *)
Lemma send_email_rejection_escapes {W : Type} (provider : Provider W)
    (Number_toString : Q → string) (cfg : Config) (body : JsVal)
    (objs : list JsVal) (emails : list Email) (s : St W) (e : JsError) (w : W) :
  js_get body "emailObjects" = Ok (JArr objs) →
  objs ≠ [] →
  Result_mapM (invitation Number_toString cfg) objs = Ok emails →
  provider (resend_batch_send emails) (world s) = (Throw e, w) →
  post_send_email provider Number_toString cfg body s =
    (Throw e, mkSt w (calls s ++ [resend_batch_send emails])).
Proof.
  intros Hget Hne Hmap Hcall. unfold post_send_email.
  rewrite (bind_lift_ok _ _ _ _ Hget).
  destruct objs as [|obj objs]; [done|]. cbn [Array_isArray negb orb elements_of length Nat.ltb Nat.leb].
  rewrite (bind_lift_ok _ _ _ _ Hmap).
  by rewrite (bind_throw _ _ _ _ _ (call_run _ _ _ _ _ Hcall)).
Qed.

(** [POST /create-customer] has no [try] at all. *)
Lemma create_customer_rejection_escapes {W : Type} (provider : Provider W)
    (body email auth_id : JsVal) (s : St W) (e : JsError) (w : W) :
  js_get body "email" = Ok email →
  js_get body "auth_id" = Ok auth_id →
  provider (stripe_customers_create email auth_id) (world s) = (Throw e, w) →
  post_create_customer provider body s =
    (Throw e, mkSt w (calls s ++ [stripe_customers_create email auth_id])).
Proof.
  intros He Ha Hcall. unfold post_create_customer.
  rewrite (bind_lift_ok _ _ _ _ He), (bind_lift_ok _ _ _ _ Ha).
  by rewrite (bind_throw _ _ _ _ _ (call_run _ _ _ _ _ Hcall)).
Qed.

(** [POST /discounts] lists the coupons outside any [try]. *)
Lemma discounts_rejection_escapes {W : Type} (provider : Provider W)
    (body : JsVal) (email : string) (s : St W) (e : JsError) (w : W) :
  js_get body "email" = Ok (JStr email) →
  provider stripe_coupons_list (world s) = (Throw e, w) →
  post_discounts provider body s =
    (Throw e, mkSt w (calls s ++ [stripe_coupons_list])).
Proof.
  intros Hget Hcall. unfold post_discounts.
  rewrite (bind_lift_ok _ _ _ _ (js_destructure_get _ _ _ _ Hget)). cbn [js_split_at].
  erewrite bind_lift_ok; [|reflexivity].
  by rewrite (bind_throw _ _ _ _ _ (call_run _ _ _ _ _ Hcall)).
Qed.

(** [POST /create-checkout-session] lists the coupons before its [try]. *)
Lemma checkout_listing_rejection_escapes {W : Type} (provider : Provider W)
    (cfg : Config) (body : JsVal) (email : string) (s : St W) (e : JsError)
    (w : W) :
  js_get body "email" = Ok (JStr email) →
  provider stripe_coupons_list (world s) = (Throw e, w) →
  post_create_checkout_session provider cfg body s =
    (Throw e, mkSt w (calls s ++ [stripe_coupons_list])).
Proof.
  intros Hget Hcall. unfold post_create_checkout_session.
  rewrite (bind_lift_ok _ _ _ _ (js_destructure_get _ _ _ _ Hget)).
  destruct (js_get_readable body "customerId") as [customerId Hcust];
    [by eapply js_get_ok_readable|].
  rewrite (bind_lift_ok _ _ _ _ (js_destructure_get _ _ _ _ Hcust)). cbn [js_split_at].
  erewrite bind_lift_ok; [|reflexivity].
  by rewrite (bind_throw _ _ _ _ _ (call_run _ _ _ _ _ Hcall)).
Qed.

(** A sibling that does wrap its call: [POST /delete-stripe-customer]
    answers 500 whatever Stripe rejects with. *)
Lemma delete_stripe_customer_rejection_caught {W : Type} (provider : Provider W)
    (body customerId : JsVal) (s : St W) (e : JsError) (w : W) :
  js_get body "customerId" = Ok customerId →
  provider (stripe_customers_del customerId) (world s) = (Throw e, w) →
  post_delete_stripe_customer provider body s =
    (Ok (mkResponse 500 (json_error "Failed to delete stripe customer")),
     mkSt w (calls s ++ [stripe_customers_del customerId])).
Proof.
  intros Hget Hcall. unfold post_delete_stripe_customer.
  rewrite (bind_lift_ok _ _ _ _ (js_destructure_get _ _ _ _ Hget)).
  erewrite try_catch_throw; [done|].
  by rewrite (bind_throw _ _ _ _ _ (call_run _ _ _ _ _ Hcall)).
Qed.

(** Claim C3.  The claim is that every vendor exception is caught at the
    handler boundary and answered with a 500.  It fails on the code: with
    the vendors down, the invitation, create-customer, preview and
    checkout handlers let the rejection escape (the outcome is the thrown
    error, no response is sent), whereas the sibling handler for customer
    deletion, which wraps its call in [try]/[catch], answers 500. *)
Theorem vendor_rejection_escapes_unwrapped_handlers :
  let e := mkError "Error" "connection refused" in
  let s := mkSt tt [] in
  (post_send_email down_provider integer_toString (plain_config "noreply@x.com")
     (request "emailObjects" (JArr [request "email" (JStr "a@x.com")])) s).1
    = Throw e
  ∧ (post_create_customer down_provider (request "email" (JStr "a@x.com")) s).1
    = Throw e
  ∧ (post_discounts down_provider (request "email" (JStr "a@x.com")) s).1
    = Throw e
  ∧ (post_create_checkout_session down_provider (plain_config "noreply@x.com")
       (request "email" (JStr "a@x.com")) s).1
    = Throw e
  ∧ (post_delete_stripe_customer down_provider
       (request "customerId" (JStr "cus_1")) s).1
    = Ok (mkResponse 500 (json_error "Failed to delete stripe customer")).
Proof.
  intros e s. split; [|split; [|split; [|split]]].
  - by erewrite send_email_rejection_escapes.
  - by erewrite create_customer_rejection_escapes.
  - by erewrite discounts_rejection_escapes.
  - by erewrite checkout_listing_rejection_escapes.
  - by erewrite delete_stripe_customer_rejection_caught.
Qed.

(** ** The derived domain *)

Lemma String_split_head (s : string) :
  ∃ t, String_split at_sign s = up_to_at s :: t.
Proof.
  induction s as [|c s [t IH]]; cbn -[at_sign]; [by eexists|].
  destruct (Ascii.eqb c at_sign); [by eexists|].
  rewrite IH. by eexists.
Qed.

Lemma String_split_at_free (s : string) :
  at_free s = true → String_split at_sign s = [s].
Proof.
  induction s as [|c s IH]; cbn -[at_sign]; [done|].
  destruct (Ascii.eqb c at_sign); cbn -[at_sign]; [done|].
  intros H. by rewrite IH.
Qed.

(** Without an "@" the derived domain is [undefined]. *)
Lemma emailDomain_without_at (email : string) :
  at_free email = true → emailDomain email = None.
Proof. intros H. unfold emailDomain. by rewrite String_split_at_free. Qed.

Lemma append_cons (c : ascii) (l r : string) :
  String c l +:+ r = String c (l +:+ r).
Proof. reflexivity. Qed.

Lemma String_split_first_at (local rest : string) :
  at_free local = true →
  String_split at_sign (local +:+ String at_sign rest) =
    local :: String_split at_sign rest.
Proof.
  induction local as [|c local IH]; [reflexivity|].
  rewrite append_cons. cbn -[at_sign].
  destruct (Ascii.eqb c at_sign); cbn -[at_sign]; [done|].
  intros H. by rewrite IH.
Qed.

Lemma up_to_at_free (s : string) : at_free s = true → up_to_at s = s.
Proof.
  induction s as [|c s IH]; cbn -[at_sign]; [done|].
  destruct (Ascii.eqb c at_sign); cbn -[at_sign]; [done|].
  intros H. by rewrite IH.
Qed.

Lemma substring_after_first_at_app (local rest : string) :
  at_free local = true →
  substring_after_first_at (local +:+ String at_sign rest) = Some rest.
Proof.
  induction local as [|c local IH]; [reflexivity|].
  rewrite append_cons. cbn -[at_sign].
  destruct (Ascii.eqb c at_sign); cbn -[at_sign]; [done | exact IH].
Qed.

(** Claim C5, as the code has it.  Write the e-mail as [local], then the
    first "@", then [rest].  The domain both handlers pass to
    [getDiscount], [email.split("@")[1]], is [rest] cut at its own first
    "@": the text between the first and the second "@".  When the e-mail
    has exactly one "@" this is all of [rest], the substring after the
    "@". *)
Theorem emailDomain_is_second_split_part (local rest : string) :
  at_free local = true →
  let email := local +:+ String at_sign rest in
  emailDomain email = Some (up_to_at rest)
  ∧ (parts ← js_split_at "email" (JStr email); Ok (parts !! 1%nat))
      = Ok (Some (up_to_at rest))
  ∧ (at_free rest = true →
       emailDomain email = Some rest
       ∧ emailDomain email = substring_after_first_at email).
Proof.
  intros Hlocal email.
  assert (Hdom : emailDomain email = Some (up_to_at rest)).
  { unfold emailDomain, email. rewrite String_split_first_at by done.
    destruct (String_split_head rest) as [t ->]. done. }
  split; [exact Hdom|]. split.
  - cbn. fold (emailDomain email). by rewrite Hdom.
  - intros Hrest. rewrite Hdom, up_to_at_free by done. split; [done|].
    unfold email. by rewrite substring_after_first_at_app.
Qed.

Lemma emailDomain_is_second_split_part_witness :
  emailDomain "a@b@c" = Some "b" ∧ emailDomain "b@x.com" = Some "x.com".
Proof.
  split.
  - apply (emailDomain_is_second_split_part "a" "b@c"). reflexivity.
  - apply (emailDomain_is_second_split_part "b" "x.com"); reflexivity.
Defined.

(** The claim as stated fails: for "a@b@c" the substring after the first
    "@" is "b@c", and the handlers resolve with "b". *)
Lemma emailDomain_not_substring_after_first_at :
  ¬ (∀ email : string,
       at_free email = false →
       emailDomain email = substring_after_first_at email).
Proof.
  intros H. specialize (H "a@b@c" eq_refl). discriminate H.
Qed.

(** ** Bulk import *)

Lemma rows_increasing_weaken (lo lo' hi hi' : nat) (es : list ErrorEntry) :
  lo' ≤ lo → hi ≤ hi' → rows_increasing lo hi es → rows_increasing lo' hi' es.
Proof.
  revert lo lo'. induction es as [|e es IH]; cbn; [done|].
  intros lo lo' Hlo Hhi (H1 & H2 & H3). repeat split; [lia | lia |].
  by apply (IH (row e)).
Qed.

Lemma rows_increasing_snoc (lo hi : nat) (es : list ErrorEntry) (e : ErrorEntry) :
  rows_increasing lo hi es → lo ≤ hi → row e = S hi →
  rows_increasing lo (S hi) (es ++ [e]).
Proof.
  revert lo. induction es as [|x es IH]; cbn; intros lo H Hlo He.
  - lia.
  - destruct H as (H1 & H2 & H3). repeat split; [lia | lia |].
    apply IH; [done | lia | done].
Qed.

Section Bulk.
Context {W : Type}.
Variable provider : Provider W.
Variable Number_toString : Q → string.

#[local] Abbreviation row_try := (bulk_try provider Number_toString).
#[local] Abbreviation rows_loop := (bulk_loop provider Number_toString).
#[local] Abbreviation import := (post_coupons_bulk provider Number_toString).

(** The inner [try] only completes through one of its [created++]. *)
Lemma bulk_try_ok (coupon : JsVal) (acc acc' : BulkAcc) (s s' : St W) :
  row_try coupon acc s = (Ok acc', s') →
  acc' = mkAcc (S (created acc)) (failed acc) (errors acc).
Proof.
  unfold bulk_try, throw, lift. rewrite !bind_run.
  intros H.
  repeat (first [ progress simplify_eq
                | rewrite bind_run in H
                | case_match ]).
  all: by injection H as <- _.
Qed.

(** The inner [catch] only completes by counting and recording the row. *)
Lemma bulk_catch_ok (i : nat) (coupon : JsVal) (acc acc' : BulkAcc)
    (e : JsError) (s s' : St W) :
  bulk_catch i coupon acc e s = (Ok acc', s') →
  s' = s ∧ ∃ name,
    js_get coupon "name" = Ok name
    ∧ acc' = mkAcc (created acc) (S (failed acc))
               (errors acc ++
                  [mkErrorEntry (i + 1)
                     (js_or name (JStr ("Row " +:+ pretty (i + 1)%nat)))
                     (message e)]).
Proof.
  unfold bulk_catch, lift. rewrite bind_run.
  destruct (js_get coupon "name") as [name|]; [|done].
  intros [= <- <-]. eauto.
Qed.

Lemma bulk_catch_readable (i : nat) (coupon : JsVal) (acc : BulkAcc)
    (e : JsError) (s : St W) :
  readable coupon → ∃ acc', bulk_catch i coupon acc e s = (Ok acc', s).
Proof.
  intros Hr. destruct (js_get_readable coupon "name" Hr) as [name Hname].
  unfold bulk_catch. rewrite (bind_lift_ok _ _ _ _ Hname). by eexists.
Qed.

(** One iteration keeps the invariant, whatever the row is. *)
Lemma bulk_row_inv (i : nat) (coupon : JsVal) (acc acc' : BulkAcc)
    (s s' : St W) :
  try_catch (row_try coupon acc) (bulk_catch i coupon acc) s = (Ok acc', s') →
  bulk_inv i acc → bulk_inv (S i) acc'.
Proof.
  unfold try_catch. intros H (Hsum & Hlen & Hrows).
  destruct (row_try coupon acc s) as [[a|e] s1] eqn:Etry.
  - apply bulk_try_ok in Etry. simplify_eq.
    split; [|split]; cbn; [lia | done |].
    by eapply rows_increasing_weaken; [| |exact Hrows]; lia.
  - apply bulk_catch_ok in H as (-> & name & _ & ->).
    split; [|split]; cbn.
    + lia.
    + rewrite length_app. cbn. lia.
    + apply rows_increasing_snoc; [done | lia | cbn; lia].
Qed.

(** A readable row never aborts the loop. *)
Lemma bulk_row_total (i : nat) (coupon : JsVal) (acc : BulkAcc) (s : St W) :
  readable coupon →
  ∃ acc' s',
    try_catch (row_try coupon acc) (bulk_catch i coupon acc) s = (Ok acc', s').
Proof.
  intros Hr. unfold try_catch.
  destruct (row_try coupon acc s) as [[a|e] s1]; [by eauto|].
  destruct (bulk_catch_readable i coupon acc e s1 Hr) as [acc' ->]. eauto.
Qed.

Lemma bulk_loop_inv (rows : list JsVal) (i : nat) (acc acc' : BulkAcc)
    (s s' : St W) :
  rows_loop rows i acc s = (Ok acc', s') →
  bulk_inv i acc → bulk_inv (i + length rows) acc'.
Proof.
  revert i acc s. induction rows as [|coupon rows IH]; intros i acc s; cbn.
  - intros [= <- <-]. by rewrite Nat.add_0_r.
  - intros H Hinv. apply bind_inv_ok in H as (acc1 & s1 & Hrow & Hrest).
    replace (i + S (length rows)) with (S i + length rows) by lia.
    eapply IH; [exact Hrest|]. by eapply bulk_row_inv.
Qed.

Lemma bulk_loop_total (rows : list JsVal) (i : nat) (acc : BulkAcc) (s : St W) :
  Forall readable rows →
  ∃ acc' s', rows_loop rows i acc s = (Ok acc', s').
Proof.
  intros Hrows. revert i acc s.
  induction Hrows as [|coupon rows Hr _ IH]; intros i acc s; cbn.
  - by eauto.
  - destruct (bulk_row_total i coupon acc s Hr) as (acc1 & s1 & Hrow).
    rewrite (bind_ok _ _ _ _ _ Hrow). apply IH.
Qed.

(** The handler past its guard: the loop's outcome decides the answer. *)
Lemma post_coupons_bulk_run (body : JsVal) (rows : list JsVal) (s : St W) :
  js_get body "coupons" = Ok (JArr rows) → rows ≠ [] →
  import body s =
    match rows_loop rows 0 (mkAcc 0 0 []) s with
    | (Ok acc, s') =>
        (Ok (mkResponse 200
               (json_bulk (created acc) (failed acc) (length rows)
                  (if (0 <? length (errors acc))%nat
                   then Some (errors acc) else None))), s')
    | (Throw e, s') => (Ok (mkResponse 500 (json_error (message e))), s')
    end.
Proof.
  intros Hget Hne. unfold post_coupons_bulk, try_catch.
  rewrite (bind_lift_ok _ _ _ _ (js_destructure_get _ _ _ _ Hget)).
  destruct rows as [|coupon rows]; [done|].
  cbn [Array_isArray negb orb elements_of length Nat.eqb].
  rewrite bind_run.
  by destruct (rows_loop (coupon :: rows) 0 (mkAcc 0 0 []) s) as [[acc|e] s'].
Qed.

(** For rows that are all readable the import is fail-soft: it answers
    200, and the counts add up to the number of rows. *)
Lemma bulk_import_fail_soft (body : JsVal) (rows : list JsVal) (s : St W) :
  js_get body "coupons" = Ok (JArr rows) → rows ≠ [] →
  Forall readable rows →
  ∃ created failed errors,
    (import body s).1 =
      Ok (mkResponse 200 (json_bulk created failed (length rows) errors))
    ∧ created + failed = length rows.
Proof.
  intros Hget Hne Hrows. rewrite (post_coupons_bulk_run _ _ _ Hget Hne).
  destruct (bulk_loop_total rows 0 (mkAcc 0 0 []) s Hrows) as (acc & s' & Hloop).
  rewrite Hloop. do 3 eexists. split; [reflexivity|].
  apply bulk_loop_inv in Hloop as (Hsum & _); [done|].
  split; [|split]; cbn; done.
Qed.

(** A row whose [type] is neither "domain" nor "email" is counted as
    failed with the message built from the printed type, and no vendor
    is called for it. *)
Lemma bulk_row_invalid_type (i : nat) (coupon expiresAt type name : JsVal)
    (redeemBy : option EpochSeconds) (shown : string) (acc : BulkAcc)
    (s : St W) :
  js_get coupon "expiresAt" = Ok expiresAt →
  redeemBy_of Number_toString expiresAt = Ok redeemBy →
  js_get coupon "type" = Ok type →
  strict_eq_str type "domain" = false →
  strict_eq_str type "email" = false →
  ToString Number_toString type = Ok shown →
  js_get coupon "name" = Ok name →
  try_catch (row_try coupon acc) (bulk_catch i coupon acc) s =
    (Ok (mkAcc (created acc) (S (failed acc))
           (errors acc ++
              [mkErrorEntry (i + 1)
                 (js_or name (JStr ("Row " +:+ pretty (i + 1)%nat)))
                 ("Invalid coupon type: " +:+ shown)])), s).
Proof.
  intros He Hr Ht Hd Hm Hs Hn.
  erewrite try_catch_throw.
  2:{ unfold bulk_try.
      rewrite (bind_lift_ok _ _ _ _ He), (bind_lift_ok _ _ _ _ Hr),
        (bind_lift_ok _ _ _ _ Ht), Hd, Hm,
        (bind_lift_ok _ _ _ _ Ht), (bind_lift_ok _ _ _ _ Hs).
      reflexivity. }
  unfold bulk_catch. by rewrite (bind_lift_ok _ _ _ _ Hn).
Qed.
(** Rows of type "domain" go to the domain-coupon creation: one call
    with [allowed_domain] metadata and [Number(maxSeats)] redemptions;
    the row is counted as created when Stripe accepts it, and as failed
    with Stripe's message when it rejects. *)
Lemma bulk_row_domain (i : nat)
    (coupon expiresAt type discountPercent maxSeats name domain : JsVal)
    (redeemBy : option EpochSeconds) (percent_off max_redemptions : JsNumber)
    (acc : BulkAcc) (s : St W) :
  js_get coupon "expiresAt" = Ok expiresAt →
  redeemBy_of Number_toString expiresAt = Ok redeemBy →
  js_get coupon "type" = Ok type →
  strict_eq_str type "domain" = true →
  js_get coupon "discountPercent" = Ok discountPercent →
  Number Number_toString discountPercent = Ok percent_off →
  js_get coupon "maxSeats" = Ok maxSeats →
  Number Number_toString maxSeats = Ok max_redemptions →
  js_get coupon "name" = Ok name →
  js_get coupon "domain" = Ok domain →
  let request :=
    stripe_coupons_create
      (CouponCreate.mk percent_off "forever" max_redemptions redeemBy name
         ("allowed_domain", domain)) in
  let s' := mkSt (provider request (world s)).2 (calls s ++ [request]) in
  try_catch (row_try coupon acc) (bulk_catch i coupon acc) s =
    match (provider request (world s)).1 with
    | Ok _ => (Ok (mkAcc (S (created acc)) (failed acc) (errors acc)), s')
    | Throw e =>
        (Ok (mkAcc (created acc) (S (failed acc))
               (errors acc ++
                  [mkErrorEntry (i + 1)
                     (js_or name (JStr ("Row " +:+ pretty (i + 1)%nat)))
                     (message e)])), s')
    end.
Proof.
  intros He Hr Ht Hd Hp Hpn Hm Hmn Hn Hdom request s'.
  assert (Htry : row_try coupon acc s =
            match (provider request (world s)).1 with
            | Ok _ => (Ok (mkAcc (S (created acc)) (failed acc) (errors acc)), s')
            | Throw e => (Throw e, s')
            end).
  { unfold bulk_try.
    rewrite (bind_lift_ok _ _ _ _ He), (bind_lift_ok _ _ _ _ Hr),
      (bind_lift_ok _ _ _ _ Ht), Hd,
      (bind_lift_ok _ _ _ _ Hp), (bind_lift_ok _ _ _ _ Hpn),
      (bind_lift_ok _ _ _ _ Hm), (bind_lift_ok _ _ _ _ Hmn),
      (bind_lift_ok _ _ _ _ Hn), (bind_lift_ok _ _ _ _ Hdom).
    rewrite bind_run. unfold call. fold request. subst s'.
    by destruct (provider request (world s)) as [[c|e] w]. }
  unfold try_catch. rewrite Htry.
  destruct ((provider request (world s)).1) as [c|e]; [done|].
  unfold bulk_catch. by rewrite (bind_lift_ok _ _ _ _ Hn).
Qed.

(** Rows of type "email" go to the e-mail-coupon creation: one call with
    [allowed_email] metadata and a single redemption. *)
Lemma bulk_row_email (i : nat)
    (coupon expiresAt type discountPercent name email : JsVal)
    (redeemBy : option EpochSeconds) (percent_off : JsNumber)
    (acc : BulkAcc) (s : St W) :
  js_get coupon "expiresAt" = Ok expiresAt →
  redeemBy_of Number_toString expiresAt = Ok redeemBy →
  js_get coupon "type" = Ok type →
  strict_eq_str type "email" = true →
  js_get coupon "discountPercent" = Ok discountPercent →
  Number Number_toString discountPercent = Ok percent_off →
  js_get coupon "name" = Ok name →
  js_get coupon "email" = Ok email →
  let request :=
    stripe_coupons_create
      (CouponCreate.mk percent_off "forever" (Literal 1) redeemBy name
         ("allowed_email", email)) in
  let s' := mkSt (provider request (world s)).2 (calls s ++ [request]) in
  try_catch (row_try coupon acc) (bulk_catch i coupon acc) s =
    match (provider request (world s)).1 with
    | Ok _ => (Ok (mkAcc (S (created acc)) (failed acc) (errors acc)), s')
    | Throw e =>
        (Ok (mkAcc (created acc) (S (failed acc))
               (errors acc ++
                  [mkErrorEntry (i + 1)
                     (js_or name (JStr ("Row " +:+ pretty (i + 1)%nat)))
                     (message e)])), s')
    end.
Proof.
  intros He Hr Ht Hd Hp Hpn Hn Hem request s'.
  assert (Hnd : strict_eq_str type "domain" = false).
  { destruct type as [| | | |t| |]; try done. cbn in *.
    apply String.eqb_eq in Hd as ->. done. }
  assert (Htry : row_try coupon acc s =
            match (provider request (world s)).1 with
            | Ok _ => (Ok (mkAcc (S (created acc)) (failed acc) (errors acc)), s')
            | Throw e => (Throw e, s')
            end).
  { unfold bulk_try.
    rewrite (bind_lift_ok _ _ _ _ He), (bind_lift_ok _ _ _ _ Hr),
      (bind_lift_ok _ _ _ _ Ht), Hnd, Hd,
      (bind_lift_ok _ _ _ _ Hp), (bind_lift_ok _ _ _ _ Hpn),
      (bind_lift_ok _ _ _ _ Hn), (bind_lift_ok _ _ _ _ Hem).
    rewrite bind_run. unfold call. fold request. subst s'.
    by destruct (provider request (world s)) as [[c|e] w]. }
  unfold try_catch. rewrite Htry.
  destruct ((provider request (world s)).1) as [c|e]; [done|].
  unfold bulk_catch. by rewrite (bind_lift_ok _ _ _ _ Hn).
Qed.

(** The loop over a concatenation: the second part starts where the first
    stopped, and is not run at all when the first part threw. *)
Lemma bulk_loop_app (rows1 rows2 : list JsVal) (i : nat) (acc : BulkAcc)
    (s : St W) :
  rows_loop (rows1 ++ rows2) i acc s =
    match rows_loop rows1 i acc s with
    | (Ok acc', s') => rows_loop rows2 (i + length rows1) acc' s'
    | (Throw e, s') => (Throw e, s')
    end.
Proof.
  revert i acc s. induction rows1 as [|coupon rows1 IH]; intros i acc s; cbn.
  - by rewrite Nat.add_0_r.
  - rewrite !bind_run.
    destruct (try_catch (row_try coupon acc) (bulk_catch i coupon acc) s)
      as [[acc1|e] s1]; [|done].
    rewrite IH. by replace (i + S (length rows1)) with (S i + length rows1) by lia.
Qed.

(** A [null] row throws out of the loop, from the inner [catch]. *)
Lemma bulk_loop_null (rest : list JsVal) (i : nat) (acc : BulkAcc) (s : St W) :
  rows_loop (JNull :: rest) i acc s =
    (Throw (TypeError "Cannot read properties of null (reading 'name')"), s).
Proof. reflexivity. Qed.
End Bulk.

(** Claim C9.  For every non-empty list given to the bulk import: when
    every row is readable the handler answers with the import summary;
    and whenever it answers with a summary, the [errors] list has exactly
    [failed] entries, their row numbers increase strictly and lie between
    1 and the number of rows, and [errors] is left out of the response,
    never sent as an empty list, exactly when no row failed. *)
Theorem bulk_errors_match_failed_rows {W : Type} (provider : Provider W)
    (Number_toString : Q → string) (body : JsVal) (rows : list JsVal)
    (s : St W) :
  js_get body "coupons" = Ok (JArr rows) → rows ≠ [] →
  let response := (post_coupons_bulk provider Number_toString body s).1 in
  (Forall readable rows →
     ∃ created failed errors,
       response =
         Ok (mkResponse 200 (json_bulk created failed (length rows) errors)))
  ∧ (∀ code created failed total errors,
       response = Ok (mkResponse code (json_bulk created failed total errors)) →
       length (default [] errors) = failed
       ∧ rows_increasing 0 (length rows) (default [] errors)
       ∧ (failed = 0 ↔ errors = None)
       ∧ errors ≠ Some []).
Proof.
  intros Hget Hne response. split.
  - intros Hrows.
    destruct (bulk_import_fail_soft provider Number_toString body rows s
                Hget Hne Hrows) as (c & f & es & H & _).
    by exists c, f, es.
  - subst response. rewrite (post_coupons_bulk_run _ _ _ _ _ Hget Hne).
    destruct (bulk_loop provider Number_toString rows 0 (mkAcc 0 0 []) s)
      as [[acc|e] s'] eqn:Hloop; [|done].
    apply bulk_loop_inv in Hloop as (_ & Hlen & Hrows);
      [|by split; [|split]].
    cbn [fst]. intros code c f t es [= _ _ <- _ <-].
    destruct (errors acc) as [|e es'] eqn:Herr; cbn in *.
    + subst. by repeat split.
    + rewrite <- Hlen. split; [done|]. split; [done|]. split; [|done].
      split; [lia | done].
Qed.

(** The specification's example: a domain row, a row of unknown type and
    an e-mail row. *)
Lemma bulk_errors_match_failed_rows_witness :
  let es := [mkErrorEntry 2 (JStr "Row 2") "Invalid coupon type: bogus"] in
  (post_coupons_bulk memory_provider integer_toString
     (request "coupons" (JArr [domain_row; bogus_row; email_row]))
     (mkSt [] [])).1 =
    Ok (mkResponse 200 (json_bulk 2 1 3 (Some es)))
  ∧ length es = 1
  ∧ rows_increasing 0 3 es.
Proof.
  intros es. split; [reflexivity|].
  destruct (bulk_errors_match_failed_rows memory_provider integer_toString
              (request "coupons" (JArr [domain_row; bogus_row; email_row]))
              [domain_row; bogus_row; email_row] (mkSt [] []))
    as [_ H].
  - reflexivity.
  - discriminate.
  - destruct (H 200 2 1 3 (Some es)) as (Hlen & Hrows & _).
    + reflexivity.
    + split; [exact Hlen | exact Hrows].
Defined.

(** Claim C2.  The claim is that every row is processed whatever happened
    to the rows before it.  It fails on the code when a row is [null]:
    reading [coupon.expiresAt] throws inside the inner [try], the inner
    [catch] then reads [coupon.name] and throws again, and that second
    exception leaves the loop for the outer [catch].  The rows before the
    [null] (here any objects) have been processed, with their vendor
    calls made; the answer is nevertheless a 500 without any summary, and
    the rows after the [null] are never looked at, whatever they are. *)
Theorem bulk_import_null_row_aborts {W : Type} (provider : Provider W)
    (Number_toString : Q → string) (objects : list (gmap string JsVal))
    (rest : list JsVal) (s : St W) :
  let before := JObj <$> objects in
  post_coupons_bulk provider Number_toString
    (request "coupons" (JArr (before ++ JNull :: rest))) s =
    (Ok (mkResponse 500
           (json_error "Cannot read properties of null (reading 'name')")),
     (bulk_loop provider Number_toString before 0 (mkAcc 0 0 []) s).2).
Proof.
  intros before.
  rewrite (post_coupons_bulk_run provider Number_toString _
             (before ++ JNull :: rest) s (js_get_request _ _))
    by (by destruct before).
  rewrite bulk_loop_app.
  destruct (bulk_loop_total provider Number_toString before 0 (mkAcc 0 0 []) s)
    as (acc & s' & ->).
  { subst before. apply Forall_fmap, Forall_true. by split. }
  by rewrite bulk_loop_null.
Qed.

(** A created row, then [null], then a row that is never reached: Stripe
    holds one new coupon, and the answer reports none of it. *)
Example bulk_import_null_row_after_created_row :
  let out :=
    post_coupons_bulk memory_provider integer_toString
      (request "coupons" (JArr [domain_row; JNull; email_row])) (mkSt [] []) in
  out.1 = Ok (mkResponse 500
                (json_error "Cannot read properties of null (reading 'name')"))
  ∧ length (world out.2) = 1
  ∧ length (calls out.2) = 1.
Proof. by split; [|split]. Qed.

(** ** The examples of the specification *)

Example resolver_prefers_email_coupon :
  getDiscount [email_coupon_a; domain_coupon_x] "a@x.com" (emailDomain "a@x.com")
    = Some email_coupon_a
  ∧ getDiscount [domain_coupon_x; email_coupon_a] "a@x.com" (emailDomain "a@x.com")
    = Some email_coupon_a.
Proof. by split. Qed.

Example resolver_falls_back_to_domain_coupon :
  getDiscount [domain_coupon_x] "b@x.com" (emailDomain "b@x.com")
    = Some domain_coupon_x.
Proof. reflexivity. Qed.

Example resolver_finds_nothing :
  getDiscount [email_coupon_a; domain_coupon_x] "c@y.org" (emailDomain "c@y.org")
    = None.
Proof. reflexivity. Qed.

Example bulk_import_partial_failure :
  (post_coupons_bulk memory_provider integer_toString
     (request "coupons" (JArr [domain_row; bogus_row; email_row]))
     (mkSt [] [])).1 =
    Ok (mkResponse 200
          (json_bulk 2 1 3
             (Some [mkErrorEntry 2 (JStr "Row 2") "Invalid coupon type: bogus"]))).
Proof. reflexivity. Qed.

Example created_domain_coupon_is_listed :
  let s := (post_coupons memory_provider integer_toString
              (JObj {[ "name" := JStr "ACME"; "domain" := JStr "x.com";
                       "discountPercent" := JNum 20; "maxSeats" := JNum 5 ]})
              (mkSt [] [])).2 in
  match (get_coupons memory_provider s).1 with
  | Ok (mkResponse 200 (json_coupons [c])) =>
      max_redemptions c = Some 5%Z
      ∧ metadata c !! "allowed_domain" = Some "x.com"
      ∧ times_redeemed c = 0%Z
  | _ => False
  end.
Proof. by split; [|split]. Qed.

(** The asymmetry the specification records as an open question: the
    preview hides a used-up coupon, the checkout still attaches it. *)
Example preview_and_checkout_on_used_up_coupon :
  let s := mkSt [exhausted_coupon_x] [] in
  let body := request "email" (JStr "b@x.com") in
  (post_discounts memory_provider body s).1
    = Ok (mkResponse 200 (json_discount None))
  ∧ ∃ params,
      last (calls (post_create_checkout_session memory_provider
                     (plain_config "noreply@x.com") body s).2)
        = Some (stripe_checkout_sessions_create params)
      ∧ discounts params = Some ["c_used_up"].
Proof. split; [reflexivity|]. eexists. by split. Qed.

(** * Further properties of the handlers *)

(** ** The derived domain and the resolver *)

Lemma at_free_up_to_at (s : string) : at_free (up_to_at s) = true.
Proof.
  induction s as [|c s IH]; cbn -[at_sign]; [done|].
  destruct (Ascii.eqb c at_sign) eqn:E; cbn -[at_sign]; [done|].
  by rewrite E.
Qed.

Lemma at_split (s : string) :
  at_free s = false →
  ∃ local rest, s = local +:+ String at_sign rest ∧ at_free local = true.
Proof.
  induction s as [|c s IH]; cbn -[at_sign]; [done|].
  destruct (Ascii.eqb c at_sign) eqn:E; cbn -[at_sign].
  - intros _. apply Ascii.eqb_eq in E as ->. by exists EmptyString, s.
  - intros H. destruct (IH H) as (local & rest & -> & Hl).
    exists (String c local), rest. split; [done|].
    cbn -[at_sign]. by rewrite E.
Qed.

(** The domain handed to [getDiscount] is [undefined] exactly when the
    e-mail has no "@", and a derived domain never contains an "@". *)
Theorem emailDomain_defined_iff_at (email : string) :
  (emailDomain email = None ↔ at_free email = true)
  ∧ (∀ d, emailDomain email = Some d → at_free d = true).
Proof.
  destruct (at_free email) eqn:E.
  - rewrite emailDomain_without_at by done. by split.
  - destruct (at_split email E) as (local & rest & -> & Hl).
    assert (H : emailDomain (local +:+ String at_sign rest) = Some (up_to_at rest)).
    { unfold emailDomain. rewrite String_split_first_at by done.
      by destruct (String_split_head rest) as [t ->]. }
    rewrite H. split; [by split|].
    intros d [= <-]. apply at_free_up_to_at.
Qed.

(** For an e-mail without "@" the resolver's domain pass compares
    [allowed_domain] with [undefined]: unless a coupon is reserved for
    that very e-mail, it returns the first coupon that has no
    [allowed_domain] at all, such as an e-mail coupon of somebody else. *)
Theorem getDiscount_without_at_takes_domainless_coupon (coupons : list Coupon)
    (email : string) :
  at_free email = true →
  ¬ (∃ c, c ∈ coupons ∧ metadata c !! "allowed_email" = Some email) →
  (∃ c, c ∈ coupons ∧ metadata c !! "allowed_domain" = None) →
  ∃ c, getDiscount coupons email (emailDomain email) = Some c
       ∧ first_match (λ c, metadata c !! "allowed_domain" = None) coupons c.
Proof.
  intros Hfree Hno (c & Hin & Hc).
  rewrite emailDomain_without_at by done. rewrite getDiscount_find.
  rewrite (find_none_of_not_exists (allowed_email_is email) coupons).
  2:{ intros (x & Hx & Hp). apply Hno. exists x. split; [done|].
      by apply bool_decide_eq_true in Hp. }
  destruct (find_some_of_exists (allowed_domain_is None) coupons) as [c' E].
  { exists c. split; [done | by apply bool_decide_eq_true]. }
  exists c'. split; [done|].
  destruct (find_first_match _ _ _ E) as (l1 & l2 & -> & Hc' & Hl1).
  exists l1, l2. split; [done|]. split.
  - by apply bool_decide_eq_true in Hc'.
  - eapply Forall_impl; [exact Hl1|]. intros x Hx Hq. apply Hx.
    by apply bool_decide_eq_true.
Qed.

Lemma getDiscount_without_at_takes_domainless_coupon_witness :
  ∃ c, getDiscount [domain_coupon_x; email_coupon_a] "nobody"
         (emailDomain "nobody") = Some c
       ∧ first_match (λ c, metadata c !! "allowed_domain" = None)
           [domain_coupon_x; email_coupon_a] c.
Proof.
  apply (getDiscount_without_at_takes_domainless_coupon
           [domain_coupon_x; email_coupon_a] "nobody").
  - reflexivity.
  - intros (c & Hin & Hc).
    apply elem_of_cons in Hin as [-> | Hin]; [discriminate Hc|].
    apply elem_of_cons in Hin as [-> | Hin]; [discriminate Hc|].
    by apply elem_of_nil in Hin.
  - exists email_coupon_a. split; [right; left | reflexivity].
Defined.

(** ** Malformed requests *)

(** When [email] is missing from the request, or is anything but a
    string, the preview and the checkout handlers fail on
    [email.split]: the exception escapes the handler before any vendor
    is called, and no response is sent. *)
Theorem email_not_a_string_escapes_before_any_call {W : Type}
    (provider : Provider W) (cfg : Config) (body email : JsVal) (s : St W) :
  js_get body "email" = Ok email →
  is_string email = false →
  ∃ e, err_name e = "TypeError"
       ∧ post_discounts provider body s = (Throw e, s)
       ∧ post_create_checkout_session provider cfg body s = (Throw e, s).
Proof.
  intros Hget Hstr.
  destruct (js_get_readable body "customerId") as [customerId Hcust];
    [by eapply js_get_ok_readable|].
  destruct (js_split_at "email" email) as [parts|e] eqn:Hsplit;
    [by destruct email|].
  exists e. split; [by destruct email; cbn in *; simplify_eq|].
  unfold post_discounts, post_create_checkout_session.
  rewrite !(bind_lift_ok _ _ _ _ (js_destructure_get _ _ _ _ Hget)).
  rewrite (bind_lift_ok _ _ _ _ (js_destructure_get _ _ _ _ Hcust)).
  by rewrite Hsplit.
Qed.

Lemma email_not_a_string_escapes_before_any_call_witness :
  ∃ e, err_name e = "TypeError"
       ∧ post_discounts memory_provider (JObj ∅) (mkSt [domain_coupon_x] [])
         = (Throw e, mkSt [domain_coupon_x] [])
       ∧ post_create_checkout_session memory_provider
           (plain_config "noreply@x.com") (JObj ∅) (mkSt [domain_coupon_x] [])
         = (Throw e, mkSt [domain_coupon_x] []).
Proof.
  apply (email_not_a_string_escapes_before_any_call memory_provider
           (plain_config "noreply@x.com") (JObj ∅) JUndefined
           (mkSt [domain_coupon_x] []));
    reflexivity.
Defined.

(** ** Handlers that always answer *)

Section Answers.
Context {W : Type}.

Lemma answers_respond (P : Response → Prop) (code : nat) (body : Body) :
  P (mkResponse code body) → answers_with (W := W) P (respond code body).
Proof. intros HP s r s' [= <- _]. exact HP. Qed.

Lemma answers_bind {A} (P : Response → Prop) (m : M W A) (f : A → M W Response) :
  (∀ a, answers_with P (f a)) → answers_with P (m ≫= f).
Proof.
  intros Hf s r s' H. apply bind_inv_ok in H as (a & s1 & _ & H).
  by eapply Hf.
Qed.

Lemma answers_try_catch (P : Response → Prop) (m : M W Response)
    (h : JsError → M W Response) :
  answers_with P m → (∀ e, answers_with P (h e)) →
  answers_with P (try_catch m h).
Proof.
  intros Hm Hh s r s' H. unfold try_catch in H.
  destruct (m s) as [[a|e] s1] eqn:E.
  - injection H as <- <-. by eapply Hm.
  - by eapply Hh.
Qed.

(** A handler that is one [try] whose [catch] responds cannot throw. *)
Lemma try_catch_respond_answers (P : Response → Prop) (m : M W Response)
    (code : nat) (f : JsError → Body) (s : St W) :
  answers_with P m → (∀ e, P (mkResponse code (f e))) →
  ∃ r, (try_catch m (λ error, respond code (f error)) s).1 = Ok r ∧ P r.
Proof.
  intros Hm Hc. unfold try_catch.
  destruct (m s) as [[r|e] s1] eqn:E; cbn.
  - exists r. split; [done|]. by eapply Hm.
  - eexists. split; [done|]. apply Hc.
Qed.
End Answers.

Ltac answers_step :=
  first [ apply answers_respond; cbn; set_solver
        | apply answers_bind; intros ?
        | match goal with
          | |- answers_with _ (if ?b then _ else _) => destruct b
          end ].

(** The subscription query, the coupon routes and the bulk import keep
    their whole body inside one [try]: whatever the request and whatever
    the vendors do, they send a response, with one of the status codes
    of that route, and no exception escapes. *)
Theorem wrapped_handlers_always_answer {W : Type} (provider : Provider W)
    (Number_toString : Q → string) (body : JsVal) (customerId couponId : string)
    (s : St W) :
  let answers (codes : list nat) (out : Result Response * St W) :=
    ∃ r, out.1 = Ok r ∧ status_code r ∈ codes in
  answers [200; 500] (get_subscription_status provider customerId s)
  ∧ answers [200; 500] (get_coupons provider s)
  ∧ answers [201; 500] (post_coupons provider Number_toString body s)
  ∧ answers [201; 500]
      (post_manual_override_coupons provider Number_toString body s)
  ∧ answers [200; 500] (delete_coupon provider couponId s)
  ∧ answers [200; 400; 500] (post_coupons_bulk provider Number_toString body s).
Proof.
  intros answers. subst answers. cbn beta.
  split; [|split; [|split; [|split; [|split]]]].
  - apply try_catch_respond_answers; [|intros; cbn; set_solver].
    repeat answers_step.
  - apply try_catch_respond_answers; [|intros; cbn; set_solver].
    repeat answers_step.
  - apply try_catch_respond_answers; [|intros; cbn; set_solver].
    repeat answers_step.
  - apply try_catch_respond_answers; [|intros; cbn; set_solver].
    repeat answers_step.
  - apply try_catch_respond_answers; [|intros; cbn; set_solver].
    repeat answers_step.
  - apply try_catch_respond_answers; [|intros; cbn; set_solver].
    repeat answers_step.
Qed.

(** ** Subscription status with a subscription *)

(** When the customer has a subscription with at least one item, the
    query retrieves the price of the first item and then that price's
    product, in this order, and answers 200 with the status, the first
    item's period end, the subscription id and a plan name that is never
    empty: the product's name, or "Unknown Plan" when the product has
    none.  Later subscriptions and later items are ignored. *)
Theorem subscription_status_of_first_item {W : Type} (provider : Provider W)
    (customerId : string) (s : St W) (subscription : Subscription)
    (others : list Subscription) (item : SubscriptionItem)
    (more : list SubscriptionItem) (price : Price) (product' : Product)
    (w1 w2 w3 : W) :
  provider (stripe_subscriptions_list customerId) (world s)
    = (Ok (subscription :: others), w1) →
  items subscription = item :: more →
  provider (stripe_prices_retrieve (Some (price_id item))) w1 = (Ok price, w2) →
  provider (stripe_products_retrieve (product price)) w2 = (Ok product', w3) →
  ∃ planName,
    get_subscription_status provider customerId s =
      (Ok (mkResponse 200
             (json_subscription true (Some (subscription_status subscription))
                (Some (current_period_end item)) (Some planName)
                (Some (subscription_id subscription)))),
       mkSt w3 (calls s ++ [stripe_subscriptions_list customerId;
                            stripe_prices_retrieve (Some (price_id item));
                            stripe_products_retrieve (product price)]))
    ∧ planName ≠ ""
    ∧ (∀ n, product_name product' = Some n → n ≠ "" → planName = n)
    ∧ (product_name product' = None ∨ product_name product' = Some "" →
         planName = "Unknown Plan").
Proof.
  intros Hlist Hitems Hprice Hproduct.
  exists (match product_name product' with
          | Some n => if String.eqb n "" then "Unknown Plan" else n
          | None => "Unknown Plan"
          end).
  split.
  - unfold get_subscription_status. erewrite try_catch_ok; [reflexivity|].
    rewrite (bind_ok _ _ _ _ _ (call_run _ _ _ _ _ Hlist)).
    cbn [length Nat.eqb lookup list_lookup from_option].
    erewrite bind_lift_ok; [|reflexivity].
    rewrite Hitems. cbn [lookup list_lookup fmap option_fmap option_map].
    rewrite (bind_ok _ _ _ _ _ (call_run provider _ (mkSt w1 _) _ _ Hprice)).
    rewrite (bind_ok _ _ _ _ _ (call_run provider _ (mkSt w2 _) _ _ Hproduct)).
    erewrite bind_lift_ok; [|reflexivity].
    cbn. by rewrite <- !app_assoc.
  - destruct (product_name product') as [n|]; [|by split; [|split]].
    destruct (String.eqb_spec n "") as [->|Hn].
    + split; [done|]. split; [|done]. intros n' [= <-] H. by destruct H.
    + split; [done|]. split; [by intros n' [= <-] _|].
      intros [H|[= H]]; congruence.
Qed.

Lemma subscription_status_of_first_item_witness :
  ∃ planName,
    get_subscription_status
      (subscribed_provider [mkItem "price_1" 1700000000] (Some ""))
      "cus_1" (mkSt tt []) =
      (Ok (mkResponse 200
             (json_subscription true (Some "active") (Some 1700000000%Z)
                (Some planName) (Some "sub_1"))),
       mkSt tt ([] ++ [stripe_subscriptions_list "cus_1";
                       stripe_prices_retrieve (Some "price_1");
                       stripe_products_retrieve "prod_1"]))
    ∧ planName = "Unknown Plan".
Proof.
  destruct (subscription_status_of_first_item
              (subscribed_provider [mkItem "price_1" 1700000000] (Some ""))
              "cus_1" (mkSt tt [])
              (mkSubscription "sub_1" "active" [mkItem "price_1" 1700000000]) []
              (mkItem "price_1" 1700000000) [] (mkPrice "prod_1")
              (mkProduct (Some "")) tt tt tt)
    as (planName & Hrun & _ & _ & Hunknown); try reflexivity.
  exists planName. split; [exact Hrun|]. apply Hunknown. by right.
Defined.

(** A subscription without items: the price is retrieved with an
    [undefined] id, and whatever the vendors answer after that, the
    query ends with the 500 of its [catch], never with a status. *)
Theorem subscription_without_items_answers_500 {W : Type}
    (provider : Provider W) (customerId : string) (s : St W)
    (subscription : Subscription) (others : list Subscription) (w1 : W) :
  provider (stripe_subscriptions_list customerId) (world s)
    = (Ok (subscription :: others), w1) →
  items subscription = [] →
  let out := get_subscription_status provider customerId s in
  out.1 = Ok (mkResponse 500 (json_error "Failed to fetch subscription status"))
  ∧ take 2 (new_calls s out.2)
    = [stripe_subscriptions_list customerId; stripe_prices_retrieve None].
Proof.
  intros Hlist Hitems out. subst out. unfold get_subscription_status, new_calls.
  destruct (provider (stripe_prices_retrieve None) w1) as [[price|e] w2] eqn:Hp.
  - destruct (provider (stripe_products_retrieve (product price)) w2)
      as [[product'|e] w3] eqn:Hq.
    + erewrite try_catch_throw.
      2:{ rewrite (bind_ok _ _ _ _ _ (call_run _ _ _ _ _ Hlist)).
          cbn [length Nat.eqb lookup list_lookup from_option].
          erewrite bind_lift_ok; [|reflexivity].
          rewrite Hitems. cbn [lookup list_lookup fmap option_fmap option_map].
          rewrite (bind_ok _ _ _ _ _ (call_run provider _ (mkSt w1 _) _ _ Hp)).
          rewrite (bind_ok _ _ _ _ _ (call_run provider _ (mkSt w2 _) _ _ Hq)).
          reflexivity. }
      cbn. by rewrite <- !app_assoc, drop_app_length.
    + erewrite try_catch_throw.
      2:{ rewrite (bind_ok _ _ _ _ _ (call_run _ _ _ _ _ Hlist)).
          cbn [length Nat.eqb lookup list_lookup from_option].
          erewrite bind_lift_ok; [|reflexivity].
          rewrite Hitems. cbn [lookup list_lookup fmap option_fmap option_map].
          rewrite (bind_ok _ _ _ _ _ (call_run provider _ (mkSt w1 _) _ _ Hp)).
          rewrite (bind_throw _ _ _ _ _ (call_run provider _ (mkSt w2 _) _ _ Hq)).
          reflexivity. }
      cbn. by rewrite <- !app_assoc, drop_app_length.
  - erewrite try_catch_throw.
    2:{ rewrite (bind_ok _ _ _ _ _ (call_run _ _ _ _ _ Hlist)).
          cbn [length Nat.eqb lookup list_lookup from_option].
          erewrite bind_lift_ok; [|reflexivity].
          rewrite Hitems. cbn [lookup list_lookup fmap option_fmap option_map].
          rewrite (bind_throw _ _ _ _ _ (call_run provider _ (mkSt w1 _) _ _ Hp)).
          reflexivity. }
    cbn. by rewrite <- !app_assoc, drop_app_length.
Qed.

Lemma subscription_without_items_answers_500_witness :
  let out := get_subscription_status (subscribed_provider [] (Some "Pro"))
               "cus_1" (mkSt tt []) in
  out.1 = Ok (mkResponse 500 (json_error "Failed to fetch subscription status"))
  ∧ take 2 (new_calls (mkSt tt []) out.2)
    = [stripe_subscriptions_list "cus_1"; stripe_prices_retrieve None].
Proof.
  apply (subscription_without_items_answers_500 (subscribed_provider [] (Some "Pro"))
           "cus_1" (mkSt tt []) (mkSubscription "sub_1" "active" []) [] tt);
    reflexivity.
Defined.

(** ** Creating one coupon *)

Lemma new_calls_same {W : Type} (s : St W) : new_calls s s = [].
Proof. unfold new_calls. by rewrite drop_all. Qed.

Lemma new_calls_app {W : Type} (s : St W) (w : W) (l : list Call) :
  new_calls s (mkSt w (calls s ++ l)) = l.
Proof. unfold new_calls. cbn. by rewrite drop_app_length. Qed.

Section CreateRoutes.
Context {W : Type}.
Variable provider : Provider W.
Variable Number_toString : Q → string.

(** What a creation route does once its argument is built, or failed to
    be built, by the part of the [try] that calls no vendor. *)
Lemma create_route_run (built : Result CouponCreate.params) (s : St W) :
  try_catch
    (params ← lift built;
     coupon ← call provider (stripe_coupons_create params);
     respond 201 (json_coupon coupon))
    (λ error, respond 500 (json_error (message error))) s =
  match built with
  | Throw e => (Ok (mkResponse 500 (json_error (message e))), s)
  | Ok p =>
      let '(r, w) := provider (stripe_coupons_create p) (world s) in
      (Ok match r with
          | Ok c => mkResponse 201 (json_coupon c)
          | Throw e => mkResponse 500 (json_error (message e))
          end,
       mkSt w (calls s ++ [stripe_coupons_create p]))
  end.
Proof.
  unfold try_catch. destruct built as [p|e]; [|done].
  rewrite (bind_lift_ok _ _ _ _ eq_refl), bind_run. unfold call.
  by destruct (provider (stripe_coupons_create p) (world s)) as [[c|e] w].
Qed.

(** Consecutive pure steps of a handler are one pure step. *)
Lemma lift_bind {A B C} (r : Result A) (f : A → M W C) (g : A → Result B)
    (k : B → M W C) (s : St W) :
  (∀ a s', f a s' = (lift (g a) ≫= k) s') →
  (lift r ≫= f) s = (lift (r ≫= g) ≫= k) s.
Proof. intros H. destruct r as [a|e]; [apply H | done]. Qed.

Lemma try_catch_ext {A} (m m' : M W A) (h : JsError → M W A) (s : St W) :
  m s = m' s → try_catch m h s = try_catch m' h s.
Proof. unfold try_catch. by intros ->. Qed.


End CreateRoutes.


(** ** More on the bulk import *)

Section BulkCalls.
Context {W : Type}.
Variable provider : Provider W.
Variable Number_toString : Q → string.

#[local] Abbreviation row_try := (bulk_try provider Number_toString).
#[local] Abbreviation rows_loop := (bulk_loop provider Number_toString).

(** The inner [try] is a part that calls no vendor, then one creation. *)
Lemma bulk_try_factor (coupon : JsVal) (acc : BulkAcc) :
  ∃ built : Result CouponCreate.params,
    ∀ s, row_try coupon acc s =
           (params ← lift built;
            _ ← call provider (stripe_coupons_create params);
            mret (mkAcc (S (created acc)) (failed acc) (errors acc))) s.
Proof.
  exists (expiresAt ← js_get coupon "expiresAt";
          redeemBy ← redeemBy_of Number_toString expiresAt;
          type ← js_get coupon "type";
          if strict_eq_str type "domain" then
            discountPercent ← js_get coupon "discountPercent";
            percent_off ← Number Number_toString discountPercent;
            maxSeats ← js_get coupon "maxSeats";
            max_redemptions ← Number Number_toString maxSeats;
            name ← js_get coupon "name";
            domain ← js_get coupon "domain";
            Ok (CouponCreate.mk percent_off "forever" max_redemptions
                  redeemBy name ("allowed_domain", domain))
          else if strict_eq_str type "email" then
            discountPercent ← js_get coupon "discountPercent";
            percent_off ← Number Number_toString discountPercent;
            name ← js_get coupon "name";
            email ← js_get coupon "email";
            Ok (CouponCreate.mk percent_off "forever" (Literal 1)
                  redeemBy name ("allowed_email", email))
          else
            type ← js_get coupon "type";
            shown ← ToString Number_toString type;
            Throw (mkError "Error" ("Invalid coupon type: " +:+ shown))).
  intros s. unfold bulk_try.
  do 3 (apply lift_bind; intros ? ?).
  destruct (strict_eq_str _ "domain"); [|destruct (strict_eq_str _ "email")];
    repeat (apply lift_bind; intros ? ?); reflexivity.
Qed.

Lemma bulk_catch_state (i : nat) (coupon : JsVal) (acc : BulkAcc)
    (e : JsError) (s : St W) :
  (bulk_catch i coupon acc e s).2 = s
  ∧ ∀ acc', (bulk_catch i coupon acc e s).1 = Ok acc' →
      created acc' = created acc.
Proof.
  unfold bulk_catch. rewrite bind_run. cbn.
  destruct (js_get coupon "name") as [name|e']; cbn; [|done].
  split; [done|]. by intros acc' [= <-].
Qed.

(** One row adds at most one call, a coupon creation, and [created]
    grows by at most the number of calls added. *)
Lemma bulk_row_calls (i : nat) (coupon : JsVal) (acc : BulkAcc) (s : St W) :
  let out := try_catch (row_try coupon acc) (bulk_catch i coupon acc) s in
  ∃ l, calls out.2 = calls s ++ l
       ∧ Forall (λ c, is_coupon_create c = true) l
       ∧ length l ≤ 1
       ∧ ∀ acc', out.1 = Ok acc' → created acc' ≤ created acc + length l.
Proof.
  cbn zeta. destruct (bulk_try_factor coupon acc) as [built Hrun].
  unfold try_catch. rewrite Hrun. destruct built as [p|e].
  - rewrite (bind_lift_ok _ _ _ _ eq_refl), bind_run. unfold call.
    destruct (provider (stripe_coupons_create p) (world s)) as [[c|e] w].
    + exists [stripe_coupons_create p]. cbn.
      split; [done|]. split; [by repeat constructor|]. split; [done|].
      intros acc' [= <-]. cbn. lia.
    + destruct (bulk_catch_state i coupon acc e
                  (mkSt w (calls s ++ [stripe_coupons_create p]))) as [Hs Hc].
      exists [stripe_coupons_create p]. rewrite Hs. cbn.
      split; [done|]. split; [by repeat constructor|]. split; [done|].
      intros acc' H. rewrite (Hc acc' H). lia.
  - rewrite bind_run. unfold lift.
    destruct (bulk_catch_state i coupon acc e s) as [Hs Hc].
    exists []. rewrite Hs, app_nil_r. split; [done|]. split; [done|].
    split; [cbn; lia|]. intros acc' H. rewrite (Hc acc' H). lia.
Qed.
Lemma bulk_loop_calls (rows : list JsVal) (i : nat) (acc : BulkAcc) (s : St W) :
  let out := rows_loop rows i acc s in
  ∃ l, calls out.2 = calls s ++ l
       ∧ Forall (λ c, is_coupon_create c = true) l
       ∧ length l ≤ length rows
       ∧ ∀ acc', out.1 = Ok acc' → created acc' ≤ created acc + length l.
Proof.
  cbn zeta. revert i acc s.
  induction rows as [|coupon rows IH]; intros i acc s; cbn [bulk_loop].
  - exists []. rewrite app_nil_r. cbn. split; [done|]. split; [done|].
    split; [done|]. intros acc' [= <-]. lia.
  - rewrite bind_run.
    destruct (bulk_row_calls i coupon acc s) as (l1 & Hc1 & Hf1 & Hl1 & Hn1).
    destruct (try_catch (row_try coupon acc) (bulk_catch i coupon acc) s)
      as [[acc1|e] s1]; cbn [fst snd] in *.
    + destruct (IH (S i) acc1 s1) as (l2 & Hc2 & Hf2 & Hl2 & Hn2).
      exists (l1 ++ l2). rewrite Hc2, Hc1, app_assoc.
      split; [done|]. split; [by apply Forall_app|].
      rewrite length_app. split; [cbn; lia|].
      intros acc' H. specialize (Hn2 acc' H). specialize (Hn1 acc1 eq_refl). lia.
    + exists l1. split; [done|]. split; [done|]. split; [cbn; lia | done].
Qed.


End BulkCalls.

(** The bulk import calls nothing but [stripe.coupons.create], at most
    once per row and in row order, and it never reports more created
    coupons than it made calls. *)
Theorem bulk_import_only_creates {W : Type} (provider : Provider W)
    (Number_toString : Q → string) (body : JsVal) (rows : list JsVal)
    (s : St W) :
  js_get body "coupons" = Ok (JArr rows) →
  let out := post_coupons_bulk provider Number_toString body s in
  Forall (λ c, is_coupon_create c = true) (new_calls s out.2)
  ∧ length (new_calls s out.2) ≤ length rows
  ∧ ∀ code created failed total errors,
      out.1 = Ok (mkResponse code (json_bulk created failed total errors)) →
      created ≤ length (new_calls s out.2).
Proof.
  intros Hget out. subst out. destruct rows as [|coupon rows].
  - unfold post_coupons_bulk, try_catch.
    rewrite (bind_lift_ok _ _ _ _ (js_destructure_get _ _ _ _ Hget)).
    cbn. rewrite new_calls_same. split; [done|]. split; [done|].
    intros ? ? ? ? ? [=].
  - rewrite (post_coupons_bulk_run _ _ _ _ _ Hget) by done.
    destruct (bulk_loop_calls provider Number_toString (coupon :: rows) 0
                (mkAcc 0 0 []) s) as (l & Hc & Hf & Hl & Hn).
    destruct (bulk_loop provider Number_toString (coupon :: rows) 0
                (mkAcc 0 0 []) s) as [[acc|e] [w cs]]; cbn [fst snd calls] in *;
      subst cs; rewrite new_calls_app.
    + split; [done|]. split; [done|].
      intros code c f t es [= _ <- _ _ _]. by apply (Hn acc).
    + split; [done|]. split; [done|]. intros ? ? ? ? ? [=].
Qed.

Lemma bulk_import_only_creates_witness :
  let out := post_coupons_bulk memory_provider integer_toString
               (request "coupons" (JArr [domain_row; bogus_row; email_row]))
               (mkSt [] []) in
  Forall (λ c, is_coupon_create c = true) (new_calls (mkSt [] []) out.2)
  ∧ length (new_calls (mkSt [] []) out.2) ≤ 3.
Proof.
  intros out.
  destruct (bulk_import_only_creates memory_provider integer_toString
              (request "coupons" (JArr [domain_row; bogus_row; email_row]))
              [domain_row; bogus_row; email_row] (mkSt [] []))
    as (Hf & Hl & _).
  - reflexivity.
  - split; [exact Hf | exact Hl].
Defined.



(** ** A bulk row and the single-coupon routes *)

Section RowVersusRoute.
Context {W : Type}.
Variable provider : Provider W.
Variable Number_toString : Q → string.
Variable o : gmap string JsVal.

#[local] Abbreviation field := (λ k : string, default JUndefined (o !! k)).

Lemma post_coupons_object_run (s : St W) :
  post_coupons provider Number_toString (JObj o) s =
    try_catch
      (params ← lift
         (redeemBy ← redeemBy_of Number_toString (field "expiresAt");
          domain_coupon_params Number_toString (field "discountPercent")
            (field "maxSeats") redeemBy (field "name") (field "domain"));
       coupon ← call provider (stripe_coupons_create params);
       respond 201 (json_coupon coupon))
      (λ error, respond 500 (json_error (message error))) s.
Proof.
  unfold post_coupons. apply try_catch_ext. cbn [js_destructure js_get].
  rewrite !(bind_lift_ok _ _ _ _ eq_refl).
  apply lift_bind. reflexivity.
Qed.

Lemma post_manual_override_coupons_object_run (s : St W) :
  post_manual_override_coupons provider Number_toString (JObj o) s =
    try_catch
      (params ← lift
         (redeemBy ← redeemBy_of Number_toString (field "expiresAt");
          email_coupon_params Number_toString (field "discountPercent")
            redeemBy (field "name") (field "email"));
       coupon ← call provider (stripe_coupons_create params);
       respond 201 (json_coupon coupon))
      (λ error, respond 500 (json_error (message error))) s.
Proof.
  unfold post_manual_override_coupons. apply try_catch_ext.
  cbn [js_destructure js_get].
  rewrite !(bind_lift_ok _ _ _ _ eq_refl).
  apply lift_bind. reflexivity.
Qed.

Lemma bulk_try_object_domain (acc : BulkAcc) (s : St W) :
  o !! "type" = Some (JStr "domain") →
  bulk_try provider Number_toString (JObj o) acc s =
    (params ← lift
       (redeemBy ← redeemBy_of Number_toString (field "expiresAt");
        domain_coupon_params Number_toString (field "discountPercent")
          (field "maxSeats") redeemBy (field "name") (field "domain"));
     _ ← call provider (stripe_coupons_create params);
     mret (mkAcc (S (created acc)) (failed acc) (errors acc))) s.
Proof.
  intros Htype. unfold bulk_try, domain_coupon_params.
  cbn [js_get]. rewrite Htype. cbn [default from_option strict_eq_str].
  rewrite (bind_lift_ok _ _ _ _ eq_refl).
  apply lift_bind. intros redeemBy s1. cbn beta.
  rewrite (bind_lift_ok _ _ _ _ eq_refl).
  change (strict_eq_str (Datatypes.id (JStr "domain")) "domain") with true.
  cbn iota.
  rewrite (bind_lift_ok _ _ _ _ eq_refl).
  apply lift_bind. intros percent_off s2. cbn beta.
  rewrite (bind_lift_ok _ _ _ _ eq_refl).
  apply lift_bind. intros max_redemptions s3. cbn beta. reflexivity.
Qed.

Lemma bulk_try_object_email (acc : BulkAcc) (s : St W) :
  o !! "type" = Some (JStr "email") →
  bulk_try provider Number_toString (JObj o) acc s =
    (params ← lift
       (redeemBy ← redeemBy_of Number_toString (field "expiresAt");
        email_coupon_params Number_toString (field "discountPercent")
          redeemBy (field "name") (field "email"));
     _ ← call provider (stripe_coupons_create params);
     mret (mkAcc (S (created acc)) (failed acc) (errors acc))) s.
Proof.
  intros Htype. unfold bulk_try, email_coupon_params.
  cbn [js_get]. rewrite Htype. cbn [default from_option strict_eq_str].
  rewrite (bind_lift_ok _ _ _ _ eq_refl).
  apply lift_bind. intros redeemBy s1. cbn beta.
  rewrite (bind_lift_ok _ _ _ _ eq_refl).
  change (strict_eq_str (Datatypes.id (JStr "email")) "domain") with false.
  change (strict_eq_str (Datatypes.id (JStr "email")) "email") with true.
  cbn iota.
  rewrite (bind_lift_ok _ _ _ _ eq_refl).
  apply lift_bind. intros percent_off s2. cbn beta. reflexivity.
Qed.

(** A route and an import row that build the same creation argument end
    in the same state and report the same outcome. *)
Lemma route_and_row_agree (built : Result CouponCreate.params) (i : nat)
    (acc : BulkAcc) (s : St W) :
  let single :=
    try_catch
      (params ← lift built;
       coupon ← call provider (stripe_coupons_create params);
       respond 201 (json_coupon coupon))
      (λ error, respond 500 (json_error (message error))) s in
  let row :=
    try_catch
      (params ← lift built;
       _ ← call provider (stripe_coupons_create params);
       mret (mkAcc (S (created acc)) (failed acc) (errors acc)))
      (bulk_catch i (JObj o) acc) s in
  row.2 = single.2
  ∧ (∀ c, single.1 = Ok (mkResponse 201 (json_coupon c)) →
       row.1 = Ok (mkAcc (S (created acc)) (failed acc) (errors acc)))
  ∧ (∀ m, single.1 = Ok (mkResponse 500 (json_error m)) →
       row.1 = Ok (mkAcc (created acc) (S (failed acc))
                     (errors acc ++
                        [mkErrorEntry (i + 1)
                           (js_or (field "name")
                              (JStr ("Row " +:+ pretty (i + 1)%nat))) m]))).
Proof.
  cbn zeta. rewrite create_route_run. unfold try_catch.
  destruct built as [p|e].
  - rewrite (bind_lift_ok _ _ _ _ eq_refl), bind_run. unfold call.
    destruct (provider (stripe_coupons_create p) (world s)) as [[c|e] w]; cbn.
    + split; [done|]. split; [done|]. intros m [=].
    + split; [done|]. split; [by intros c [=]|]. by intros m [= <-].
  - cbn. split; [done|]. split; [by intros c [=]|]. by intros m [= <-].
Qed.
End RowVersusRoute.

(** Importing a single object row of type "domain" does what
    [POST /coupons] does with that object as its body, and a row of type
    "email" what [POST /manual-override-coupons] does: the same vendor
    call or none, the same final state, one created coupon where the
    route answers 201, and one failed row with the route's error message
    where it answers 500. *)
Theorem bulk_row_matches_single_route {W : Type} (provider : Provider W)
    (Number_toString : Q → string) (o : gmap string JsVal) (s : St W) :
  let bulk :=
    post_coupons_bulk provider Number_toString
      (request "coupons" (JArr [JObj o])) s in
  let same_as (single : Result Response * St W) :=
    bulk.2 = single.2
    ∧ (∀ c, single.1 = Ok (mkResponse 201 (json_coupon c)) →
         bulk.1 = Ok (mkResponse 200 (json_bulk 1 0 1 None)))
    ∧ (∀ m, single.1 = Ok (mkResponse 500 (json_error m)) →
         bulk.1 = Ok (mkResponse 200 (json_bulk 0 1 1 (Some
                    [mkErrorEntry 1
                       (js_or (default JUndefined (o !! "name")) (JStr "Row 1"))
                       m])))) in
  (o !! "type" = Some (JStr "domain") →
     same_as (post_coupons provider Number_toString (JObj o) s))
  ∧ (o !! "type" = Some (JStr "email") →
     same_as (post_manual_override_coupons provider Number_toString (JObj o) s)).
Proof.
  cbn zeta.
  rewrite (post_coupons_bulk_run provider Number_toString _ [JObj o] s
             (js_get_request _ _)) by done.
  cbn [bulk_loop]. rewrite bind_run.
  split; intros Htype.
  - rewrite post_coupons_object_run.
    rewrite (try_catch_ext _ _ _ _
               (bulk_try_object_domain provider Number_toString o _ _ Htype)).
    pose proof (route_and_row_agree provider o
                  (redeemBy ← redeemBy_of Number_toString
                                (default JUndefined (o !! "expiresAt"));
                   domain_coupon_params Number_toString
                     (default JUndefined (o !! "discountPercent"))
                     (default JUndefined (o !! "maxSeats")) redeemBy
                     (default JUndefined (o !! "name"))
                     (default JUndefined (o !! "domain")))
                  0 (mkAcc 0 0 []) s) as H.
    cbn zeta in H.
    set (row := try_catch _ (bulk_catch 0 (JObj o) _) s) in *.
    set (single := try_catch _ (λ error, respond 500 _) s) in *.
    clearbody row single. destruct H as (Hstate & Hok & Hfail).
    destruct row as [[acc|e] s']; cbn [fst snd] in *.
    + split; [done|]. split.
      * intros c H. specialize (Hok c H). by simplify_eq.
      * intros m H. specialize (Hfail m H). by simplify_eq.
    + split; [done|]. split.
      * intros c H. by specialize (Hok c H).
      * intros m H. by specialize (Hfail m H).
  - rewrite post_manual_override_coupons_object_run.
    rewrite (try_catch_ext _ _ _ _
               (bulk_try_object_email provider Number_toString o _ _ Htype)).
    pose proof (route_and_row_agree provider o
                  (redeemBy ← redeemBy_of Number_toString
                                (default JUndefined (o !! "expiresAt"));
                   email_coupon_params Number_toString
                     (default JUndefined (o !! "discountPercent")) redeemBy
                     (default JUndefined (o !! "name"))
                     (default JUndefined (o !! "email")))
                  0 (mkAcc 0 0 []) s) as H.
    cbn zeta in H.
    set (row := try_catch _ (bulk_catch 0 (JObj o) _) s) in *.
    set (single := try_catch _ (λ error, respond 500 _) s) in *.
    clearbody row single. destruct H as (Hstate & Hok & Hfail).
    destruct row as [[acc|e] s']; cbn [fst snd] in *.
    + split; [done|]. split.
      * intros c H. specialize (Hok c H). by simplify_eq.
      * intros m H. specialize (Hfail m H). by simplify_eq.
    + split; [done|]. split.
      * intros c H. by specialize (Hok c H).
      * intros m H. by specialize (Hfail m H).
Qed.

Lemma bulk_row_matches_single_route_witness :
  (post_coupons_bulk memory_provider integer_toString
     (request "coupons" (JArr [domain_row])) (mkSt [] [])).2 =
  (post_coupons memory_provider integer_toString domain_row (mkSt [] [])).2.
Proof.
  pose (o := ({[ "type" := JStr "domain"; "name" := JStr "ACME";
                 "domain" := JStr "x.com"; "discountPercent" := JNum 20;
                 "maxSeats" := JNum 5 ]} : gmap string JsVal)).
  assert (Htype : o !! "type" = Some (JStr "domain")) by (vm_compute; reflexivity).
  destruct (bulk_row_matches_single_route memory_provider integer_toString o
              (mkSt [] [])) as [Hdomain _].
  destruct (Hdomain Htype) as [Hstate _]. exact Hstate.
Defined.

(** ** Invitations *)

Lemma Result_mapM_ok {A B : Type} (f : A → Result B) (l : list A) (ys : list B) :
  Result_mapM f l = Ok ys → Forall2 (λ x y, f x = Ok y) l ys.
Proof.
  revert ys. induction l as [|x l IH]; cbn; intros ys.
  - intros [= <-]. constructor.
  - destruct (f x) as [y|e] eqn:Hx; [|done]. cbn.
    destruct (Result_mapM f l) as [ys'|e]; [|done]. cbn.
    intros [= <-]. constructor; [done | by apply IH].
Qed.

Lemma invitation_ok (Number_toString : Q → string) (cfg : Config)
    (obj : JsVal) (m : Email) :
  invitation Number_toString cfg obj = Ok m →
  js_get obj "email" = Ok (to m)
  ∧ from m = senderEmail cfg
  ∧ subject m = "Research Paper Invitation".
Proof.
  unfold invitation.
  destruct (js_get obj "email") as [to'|]; [|done]. cbn.
  destruct (js_get obj "invitedBy") as [v1|]; [|done]. cbn.
  destruct (ToString Number_toString v1) as [s1|]; [|done]. cbn.
  destruct (js_get obj "paper") as [v2|]; [|done]. cbn.
  destruct (ToString Number_toString v2) as [s2|]; [|done]. cbn.
  destruct (js_get obj "contributions") as [v3|]; [|done]. cbn.
  destruct (ToString Number_toString v3) as [s3|]; [|done]. cbn.
  by intros [= <-].
Qed.

(** When every descriptor can be turned into a message and Resend
    accepts the batch, the handler makes a single vendor call for the
    whole list, with one message per descriptor in the order given, each
    from the configured sender, with the fixed subject and addressed to
    the descriptor's [email]; it then answers 200. *)
Theorem send_email_one_batch {W : Type} (provider : Provider W)
    (Number_toString : Q → string) (cfg : Config) (body : JsVal)
    (objs : list JsVal) (emails : list Email) (s : St W) (w : W) :
  js_get body "emailObjects" = Ok (JArr objs) →
  objs ≠ [] →
  Result_mapM (invitation Number_toString cfg) objs = Ok emails →
  provider (resend_batch_send emails) (world s) = (Ok tt, w) →
  post_send_email provider Number_toString cfg body s =
    (Ok (mkResponse 200 (json_message "Emails has been sent")),
     mkSt w (calls s ++ [resend_batch_send emails]))
  ∧ Forall2 (λ obj m, js_get obj "email" = Ok (to m)
                      ∧ from m = senderEmail cfg
                      ∧ subject m = "Research Paper Invitation") objs emails.
Proof.
  intros Hget Hne Hmap Hcall. split.
  - unfold post_send_email. rewrite (bind_lift_ok _ _ _ _ Hget).
    destruct objs as [|obj objs]; [done|].
    cbn [Array_isArray negb orb elements_of length Nat.ltb Nat.leb].
    rewrite (bind_lift_ok _ _ _ _ Hmap).
    by rewrite (bind_ok _ _ _ _ _ (call_run _ _ _ _ _ Hcall)).
  - apply Result_mapM_ok in Hmap.
    eapply Forall2_impl; [exact Hmap|]. intros obj m. apply invitation_ok.
Qed.

Lemma send_email_one_batch_witness :
  let obj := JObj {[ "email" := JStr "b@x.com"; "invitedBy" := JStr "Ann";
                     "paper" := JStr "P"; "contributions" := JStr "review" ]} in
  ∃ emails,
    post_send_email memory_provider integer_toString (plain_config "noreply@x.com")
      (request "emailObjects" (JArr [obj; obj])) (mkSt [] []) =
      (Ok (mkResponse 200 (json_message "Emails has been sent")),
       mkSt [] ([] ++ [resend_batch_send emails]))
    ∧ to <$> emails = [JStr "b@x.com"; JStr "b@x.com"].
Proof.
  intros obj.
  destruct (Result_mapM (invitation integer_toString (plain_config "noreply@x.com"))
              [obj; obj]) as [emails|] eqn:Hmap; [|discriminate Hmap].
  exists emails. split.
  - apply (send_email_one_batch memory_provider integer_toString
             (plain_config "noreply@x.com")
             (request "emailObjects" (JArr [obj; obj])) [obj; obj] emails
             (mkSt [] []) []); [reflexivity | discriminate | exact Hmap | reflexivity].
  - injection Hmap as <-. reflexivity.
Defined.

(** The batch is all or nothing: if any descriptor of the list is [null]
    (or otherwise unreadable), the exception raised while the messages
    are built escapes the handler, no vendor is called, and nobody on
    the list is written to. *)
Theorem send_email_unreadable_descriptor_sends_nothing {W : Type}
    (provider : Provider W) (Number_toString : Q → string) (cfg : Config)
    (body : JsVal) (before after : list JsVal) (bad : JsVal) (s : St W) :
  js_get body "emailObjects" = Ok (JArr (before ++ bad :: after)) →
  ¬ readable bad →
  ∃ e, post_send_email provider Number_toString cfg body s = (Throw e, s).
Proof.
  intros Hget Hbad.
  destruct (Result_mapM (invitation Number_toString cfg) (before ++ bad :: after))
    as [emails|e] eqn:Hmap.
  - apply Result_mapM_ok, Forall2_app_inv_l in Hmap
      as (ys1 & ys2 & _ & Hbad' & _).
    apply Forall2_cons_inv_l in Hbad' as (m & ys3 & Hm & _ & _).
    apply invitation_ok in Hm as (Hm & _).
    destruct Hbad. by eapply js_get_ok_readable.
  - exists e. unfold post_send_email. rewrite (bind_lift_ok _ _ _ _ Hget).
    replace (negb (Array_isArray (JArr (before ++ bad :: after)))
             || (length (elements_of (JArr (before ++ bad :: after))) <? 1)%nat)
      with false by (by destruct before).
    cbn [elements_of]. by rewrite Hmap.
Qed.

Lemma send_email_unreadable_descriptor_sends_nothing_witness :
  ∃ e, post_send_email memory_provider integer_toString
         (plain_config "noreply@x.com")
         (request "emailObjects" (JArr [request "email" (JStr "a@x.com"); JNull]))
         (mkSt [] []) = (Throw e, mkSt [] []).
Proof.
  apply (send_email_unreadable_descriptor_sends_nothing memory_provider
           integer_toString (plain_config "noreply@x.com")
           (request "emailObjects" (JArr [request "email" (JStr "a@x.com"); JNull]))
           [request "email" (JStr "a@x.com")] [] JNull (mkSt [] [])).
  - reflexivity.
  - intros [H _]. by apply H.
Defined.

(** ** Checkout and preview together *)

Lemma post_create_checkout_session_run {W : Type} (provider : Provider W)
    (cfg : Config) (body customerId : JsVal) (email : string)
    (coupons : list Coupon) (s : St W) (w : W) :
  js_get body "email" = Ok (JStr email) →
  js_get body "customerId" = Ok customerId →
  provider stripe_coupons_list (world s) = (Ok coupons, w) →
  let params :=
    mkCheckoutParams ["card"] "subscription"
      [mkLineItem (subscriptionPriceId cfg) 1] customerId
      (checkout_success_url cfg) (checkout_cancel_url cfg)
      ((λ c, [id c]) <$> getDiscount coupons email (emailDomain email)) in
  post_create_checkout_session provider cfg body s =
    let '(r, w') := provider (stripe_checkout_sessions_create params) w in
    (Ok match r with
        | Ok session => mkResponse 200 (json_sessionUrl (url session))
        | Throw _ => mkResponse 500 (json_sessionUrl None)
        end,
     mkSt w' (calls s ++ [stripe_coupons_list;
                          stripe_checkout_sessions_create params])).
Proof.
  intros Hget Hcust Hlist params. unfold post_create_checkout_session.
  rewrite (bind_lift_ok _ _ _ _ (js_destructure_get _ _ _ _ Hget)).
  rewrite (bind_lift_ok _ _ _ _ (js_destructure_get _ _ _ _ Hcust)).
  cbn [js_split_at]. erewrite bind_lift_ok; [|reflexivity].
  rewrite (bind_ok _ _ _ _ _ (call_run _ _ _ _ _ Hlist)).
  fold (emailDomain email).
  assert (Hparams :
    match getDiscount coupons email (emailDomain email) with
    | Some discount =>
        mkCheckoutParams ["card"] "subscription"
          [mkLineItem (subscriptionPriceId cfg) 1] customerId
          (checkout_success_url cfg) (checkout_cancel_url cfg)
          (Some [id discount])
    | None =>
        mkCheckoutParams ["card"] "subscription"
          [mkLineItem (subscriptionPriceId cfg) 1] customerId
          (checkout_success_url cfg) (checkout_cancel_url cfg) None
    end = params)
    by (subst params; by destruct (getDiscount coupons email (emailDomain email))).
  cbn [payment_method_types mode line_items customer success_url cancel_url].
  rewrite Hparams. unfold try_catch. rewrite bind_run. unfold call.
  cbn [world calls].
  destruct (provider (stripe_checkout_sessions_create params) w)
    as [[session|e] w']; cbn; by rewrite <- app_assoc.
Qed.

(** Once the coupons are listed, the checkout handler always answers:
    200 with the session's URL when Stripe creates the session, and 500
    with a null URL when it rejects.  The request is for one
    subscription line item of quantity 1 at the configured price, paid
    by card, for the customer id exactly as the body gives it. *)
Theorem checkout_session_request_and_answer {W : Type} (provider : Provider W)
    (cfg : Config) (body customerId : JsVal) (email : string)
    (coupons : list Coupon) (s : St W) (w : W) :
  js_get body "email" = Ok (JStr email) →
  js_get body "customerId" = Ok customerId →
  provider stripe_coupons_list (world s) = (Ok coupons, w) →
  let out := post_create_checkout_session provider cfg body s in
  ∃ params,
    new_calls s out.2 = [stripe_coupons_list;
                         stripe_checkout_sessions_create params]
    ∧ payment_method_types params = ["card"]
    ∧ mode params = "subscription"
    ∧ line_items params = [mkLineItem (subscriptionPriceId cfg) 1]
    ∧ customer params = customerId
    ∧ success_url params = checkout_success_url cfg
    ∧ cancel_url params = checkout_cancel_url cfg
    ∧ ((∃ session, provider (stripe_checkout_sessions_create params) w
                     = (Ok session, world out.2)
                   ∧ out.1 = Ok (mkResponse 200 (json_sessionUrl (url session))))
       ∨ (∃ e, provider (stripe_checkout_sessions_create params) w
                 = (Throw e, world out.2)
               ∧ out.1 = Ok (mkResponse 500 (json_sessionUrl None)))).
Proof.
  intros Hget Hcust Hlist out. subst out.
  rewrite (post_create_checkout_session_run _ _ _ _ _ _ _ _ Hget Hcust Hlist).
  cbn zeta.
  match goal with
  | |- context [stripe_checkout_sessions_create ?p] => exists p
  end.
  destruct (provider (stripe_checkout_sessions_create _) w) as [[session|e] w'];
    cbn [fst snd world]; rewrite new_calls_app;
    (do 7 (split; [done|])); [left | right]; eauto.
Qed.

Lemma checkout_session_request_and_answer_witness :
  let out := post_create_checkout_session memory_provider
               (plain_config "noreply@x.com")
               (JObj {[ "email" := JStr "b@x.com"; "customerId" := JStr "cus_1" ]})
               (mkSt [domain_coupon_x] []) in
  ∃ params,
    new_calls (mkSt [domain_coupon_x] []) out.2
      = [stripe_coupons_list; stripe_checkout_sessions_create params]
    ∧ line_items params = [mkLineItem "price_1SVczaFG6H6jDaisbaA2rmbz" 1]
    ∧ customer params = JStr "cus_1".
Proof.
  intros out.
  destruct (checkout_session_request_and_answer memory_provider
              (plain_config "noreply@x.com")
              (JObj {[ "email" := JStr "b@x.com"; "customerId" := JStr "cus_1" ]})
              (JStr "cus_1") "b@x.com" [domain_coupon_x]
              (mkSt [domain_coupon_x] []) [domain_coupon_x])
    as (params & Hcalls & _ & _ & Hitems & Hcust & _);
    [vm_compute; reflexivity | vm_compute; reflexivity | reflexivity |].
  exists params. split; [exact Hcalls|]. split; [exact Hitems | exact Hcust].
Defined.

Lemma getDiscount_elem_of (coupons : list Coupon) (email : string)
    (domain : option string) (c : Coupon) :
  getDiscount coupons email domain = Some c → c ∈ coupons.
Proof.
  rewrite getDiscount_find. intros H.
  assert (Hin : ∀ p, List.find p coupons = Some c → c ∈ coupons).
  { intros p Hp. apply find_first_match in Hp as (l1 & l2 & -> & _).
    apply elem_of_app. right. by left. }
  destruct (List.find (allowed_email_is email) coupons) eqn:E.
  - injection H as ->. by eapply Hin.
  - by eapply Hin.
Qed.

(** What the preview shows is what the checkout attaches: over the same
    coupon list and for the same e-mail, whenever the preview answers
    with a discount, the checkout request carries the id of a listed
    coupon whose percent-off and [allowed_domain] are the previewed
    ones.  (The converse fails for a used-up coupon, which the preview
    hides and the checkout attaches.) *)
Theorem preview_discount_is_attached_at_checkout {W : Type}
    (provider : Provider W) (cfg : Config) (body : JsVal) (email : string)
    (coupons : list Coupon) (info : DiscountInfo) (s : St W) (w : W) :
  js_get body "email" = Ok (JStr email) →
  provider stripe_coupons_list (world s) = (Ok coupons, w) →
  (post_discounts provider body s).1
    = Ok (mkResponse 200 (json_discount (Some info))) →
  ∃ c params,
    c ∈ coupons
    ∧ discount info = Number_divide (percent_off c) 100
    ∧ domain info = metadata c !! "allowed_domain"
    ∧ new_calls s (post_create_checkout_session provider cfg body s).2
      = [stripe_coupons_list; stripe_checkout_sessions_create params]
    ∧ discounts params = Some [id c].
Proof.
  intros Hget Hlist Hpreview.
  rewrite (post_discounts_run _ _ _ _ _ _ Hget Hlist) in Hpreview.
  destruct (js_get_readable body "customerId") as [customerId Hcust];
    [by eapply js_get_ok_readable|].
  rewrite (post_create_checkout_session_run _ _ _ _ _ _ _ _ Hget Hcust Hlist).
  cbn zeta.
  destruct (getDiscount coupons email (emailDomain email)) as [c|] eqn:Hc;
    [|discriminate Hpreview].
  cbn [fst] in Hpreview.
  destruct (bool_decide (max_redemptions c = Some (times_redeemed c)));
    [discriminate Hpreview|].
  injection Hpreview as <-.
  match goal with
  | |- context [stripe_checkout_sessions_create ?p] => exists c, p
  end.
  split; [by eapply getDiscount_elem_of|]. split; [done|]. split; [done|].
  split; [|done].
  destruct (provider (stripe_checkout_sessions_create _) w) as [r w'];
    cbn [snd]; apply new_calls_app.
Qed.

Lemma preview_discount_is_attached_at_checkout_witness :
  ∃ c params,
    c ∈ [email_coupon_a; domain_coupon_x]
    ∧ new_calls (mkSt [email_coupon_a; domain_coupon_x] [])
        (post_create_checkout_session memory_provider
           (plain_config "noreply@x.com") (request "email" (JStr "b@x.com"))
           (mkSt [email_coupon_a; domain_coupon_x] [])).2
      = [stripe_coupons_list; stripe_checkout_sessions_create params]
    ∧ discounts params = Some [id c].
Proof.
  destruct (preview_discount_is_attached_at_checkout memory_provider
              (plain_config "noreply@x.com") (request "email" (JStr "b@x.com"))
              "b@x.com" [email_coupon_a; domain_coupon_x]
              (mkDiscountInfo (Number_divide 20 100) (Some "x.com"))
              (mkSt [email_coupon_a; domain_coupon_x] [])
              [email_coupon_a; domain_coupon_x])
    as (c & params & Hin & _ & _ & Hcalls & Hd); [reflexivity..|].
  exists c, params. split; [exact Hin|]. split; [exact Hcalls | exact Hd].
Defined.

(** ** The guarded deletions *)

(** With a request body to read from, the user deletion, the customer
    deletion and the customer-session route each make exactly one vendor
    call, with the id exactly as the body gives it, and always answer:
    200 when the call resolves, and 500 with the route's fixed message,
    never the vendor's own, when it rejects. *)
Theorem guarded_routes_mask_vendor_errors {W : Type} (provider : Provider W)
    (body : JsVal) (s : St W) :
  readable body →
  let answered (c : Call) (out : Result Response * St W)
      (success : Reply c → Body) (failure : string) :=
    out.2 = mkSt (provider c (world s)).2 (calls s ++ [c])
    ∧ out.1 = Ok match (provider c (world s)).1 with
                 | Ok reply => mkResponse 200 (success reply)
                 | Throw _ => mkResponse 500 (json_error failure)
                 end in
  (∃ userUid, js_get body "userUid" = Ok userUid
     ∧ answered (auth_deleteUser userUid) (post_delete_user provider body s)
         (λ _, json_message "User deleted successfully")
         "Failed to delete user")
  ∧ (∃ customerId, js_get body "customerId" = Ok customerId
     ∧ answered (stripe_customers_del customerId)
         (post_delete_stripe_customer provider body s)
         (λ _, json_message "Stripe customer deleted successfully")
         "Failed to delete stripe customer"
     ∧ answered (stripe_customerSessions_create customerId)
         (post_create_customer_session provider body s)
         (λ session, json_checkoutSessionSecret (client_secret session))
         "Failed to create checkout session").
Proof.
  intros Hbody answered. subst answered. cbn beta.
  destruct (js_get_readable body "userUid" Hbody) as [userUid Hu].
  destruct (js_get_readable body "customerId" Hbody) as [customerId Hc].
  split; [exists userUid | exists customerId]; (split; [done|]).
  - unfold post_delete_user, try_catch.
    rewrite (bind_lift_ok _ _ _ _ (js_destructure_get _ _ _ _ Hu)).
    rewrite !bind_run. unfold call.
    by destruct (provider (auth_deleteUser userUid) (world s)) as [[r|e] w].
  - split.
    + unfold post_delete_stripe_customer, try_catch.
      rewrite (bind_lift_ok _ _ _ _ (js_destructure_get _ _ _ _ Hc)).
      rewrite !bind_run. unfold call.
      by destruct (provider (stripe_customers_del customerId) (world s))
        as [[r|e] w].
    + unfold post_create_customer_session, try_catch.
      rewrite (bind_lift_ok _ _ _ _ (js_destructure_get _ _ _ _ Hc)).
      rewrite !bind_run. unfold call.
      by destruct (provider (stripe_customerSessions_create customerId) (world s))
        as [[r|e] w].
Qed.

Lemma guarded_routes_mask_vendor_errors_witness :
  (post_delete_user down_provider (request "userUid" (JStr "u1")) (mkSt tt [])).1
    = Ok (mkResponse 500 (json_error "Failed to delete user")).
Proof.
  destruct (guarded_routes_mask_vendor_errors down_provider
              (request "userUid" (JStr "u1")) (mkSt tt []))
    as [(userUid & _ & _ & Hout) _].
  - by split.
  - exact Hout.
Defined.

(** ** Start-up *)

(** The start-up checks pass exactly when the four keys
    FIREBASE_SERVICE_ACCOUNT, RESEND_API_KEY, SENDER_EMAIL and
    STRIPE_SECRET_KEY are set and not empty and, in production only,
    SUBSCRIPTION_PRICE_ID is too; FRONTEND_URL is never required.  The
    configuration they yield has a non-empty sender and a non-empty
    price id, which outside production is the built-in one. *)
Theorem check_environment_requirements (env : gmap string string) :
  ((∃ cfg, check_environment env = Ok cfg)
     ↔ env_set (env !! "FIREBASE_SERVICE_ACCOUNT") = true
       ∧ env_set (env !! "RESEND_API_KEY") = true
       ∧ env_set (env !! "SENDER_EMAIL") = true
       ∧ env_set (env !! "STRIPE_SECRET_KEY") = true
       ∧ (env !! "NODE_ENV" = Some "production" →
            env_set (env !! "SUBSCRIPTION_PRICE_ID") = true))
  ∧ (∀ cfg, check_environment env = Ok cfg →
       senderEmail cfg ≠ ""
       ∧ subscriptionPriceId cfg ≠ ""
       ∧ (env !! "NODE_ENV" ≠ Some "production" →
            subscriptionPriceId cfg = "price_1SVczaFG6H6jDaisbaA2rmbz")
       ∧ checkout_success_url cfg = env !! "FRONTEND_URL").
Proof.
  assert (Hset : ∀ v, env_set v = true → default "" v ≠ "").
  { intros [v|]; cbn; [|done]. intros H ->. done. }
  unfold check_environment.
  destruct (bool_decide_reflect (env !! "NODE_ENV" = Some "production")) as [Hp|Hp].
  - destruct (env_set (env !! "SUBSCRIPTION_PRICE_ID")) eqn:E0; cbn [negb].
    2:{ split; [|done]. split; [by intros [? ?]|]. intros (_ & _ & _ & _ & H).
        by specialize (H Hp). }
    destruct (env_set (env !! "FIREBASE_SERVICE_ACCOUNT")) eqn:E1; cbn [negb];
      [|by split; [split; [intros [? ?]|intros (? & _)]|]].
    destruct (env_set (env !! "RESEND_API_KEY")) eqn:E2; cbn [negb];
      [|by split; [split; [intros [? ?]|intros (_ & ? & _)]|]].
    destruct (env_set (env !! "SENDER_EMAIL")) eqn:E3; cbn [negb];
      [|by split; [split; [intros [? ?]|intros (_ & _ & ? & _)]|]].
    destruct (env_set (env !! "STRIPE_SECRET_KEY")) eqn:E4; cbn [negb];
      [|by split; [split; [intros [? ?]|intros (_ & _ & _ & ? & _)]|]].
    split; [by split; eauto|]. intros cfg [= <-]. cbn.
    rewrite bool_decide_eq_true_2 by done.
    split; [by apply Hset|]. split; [by apply Hset|]. by split.
  - cbn [env_set String.eqb negb].
    change (env_set (Some "price_1SVczaFG6H6jDaisbaA2rmbz")) with true.
    cbn [negb].
    destruct (env_set (env !! "FIREBASE_SERVICE_ACCOUNT")) eqn:E1; cbn [negb];
      [|by split; [split; [intros [? ?]|intros (? & _)]|]].
    destruct (env_set (env !! "RESEND_API_KEY")) eqn:E2; cbn [negb];
      [|by split; [split; [intros [? ?]|intros (_ & ? & _)]|]].
    destruct (env_set (env !! "SENDER_EMAIL")) eqn:E3; cbn [negb];
      [|by split; [split; [intros [? ?]|intros (_ & _ & ? & _)]|]].
    destruct (env_set (env !! "STRIPE_SECRET_KEY")) eqn:E4; cbn [negb];
      [|by split; [split; [intros [? ?]|intros (_ & _ & _ & ? & _)]|]].
    split; [by split; eauto|]. intros cfg [= <-]. cbn.
    rewrite bool_decide_eq_false_2 by done.
    split; [by apply Hset|]. by split.
Qed.

(** The variant without the identity provider requires only its three
    keys, whatever NODE_ENV is, and always charges the built-in price. *)
Theorem check_environment_plain_requirements (env : gmap string string) :
  ((∃ cfg, check_environment_plain env = Ok cfg)
     ↔ env_set (env !! "RESEND_API_KEY") = true
       ∧ env_set (env !! "SENDER_EMAIL") = true
       ∧ env_set (env !! "STRIPE_SECRET_KEY") = true)
  ∧ (∀ cfg, check_environment_plain env = Ok cfg →
       senderEmail cfg ≠ ""
       ∧ subscriptionPriceId cfg = "price_1SVczaFG6H6jDaisbaA2rmbz").
Proof.
  unfold check_environment_plain.
  destruct (env_set (env !! "RESEND_API_KEY")) eqn:E2; cbn [negb];
    [|by split; [split; [intros [? ?]|intros (? & _)]|]].
  destruct (env_set (env !! "SENDER_EMAIL")) eqn:E3; cbn [negb];
    [|by split; [split; [intros [? ?]|intros (_ & ? & _)]|]].
  destruct (env_set (env !! "STRIPE_SECRET_KEY")) eqn:E4; cbn [negb];
    [|by split; [split; [intros [? ?]|intros (_ & _ & ?)]|]].
  split; [by split; eauto|]. intros cfg [= <-]. cbn. split; [|done].
  destruct (env !! "SENDER_EMAIL") as [v|]; cbn in *; [|done].
  intros ->. done.
Qed.

(** ** Fail-soft import *)

(** For a non-empty list without [null] rows the import is fail-soft:
    whatever the vendors do, it answers 200 with a summary whose total is
    the number of rows and whose created and failed counts add up to it,
    and it has made at most one creation call per row. *)
Theorem bulk_import_summary_counts_every_row {W : Type} (provider : Provider W)
    (Number_toString : Q → string) (body : JsVal) (rows : list JsVal)
    (s : St W) :
  js_get body "coupons" = Ok (JArr rows) → rows ≠ [] →
  Forall readable rows →
  let out := post_coupons_bulk provider Number_toString body s in
  ∃ created failed errors,
    out.1 = Ok (mkResponse 200 (json_bulk created failed (length rows) errors))
    ∧ created + failed = length rows
    ∧ created ≤ length (new_calls s out.2)
    ∧ length (new_calls s out.2) ≤ length rows.
Proof.
  intros Hget Hne Hrows out. subst out.
  rewrite (post_coupons_bulk_run _ _ _ _ _ Hget Hne).
  destruct (bulk_loop_total provider Number_toString rows 0 (mkAcc 0 0 []) s Hrows)
    as (acc & s' & Hloop).
  destruct (bulk_loop_calls provider Number_toString rows 0 (mkAcc 0 0 []) s)
    as (l & Hc & _ & Hl & Hn).
  pose proof (bulk_loop_inv _ _ _ _ _ _ _ _ Hloop) as (Hsum & _);
    [by split; [|split]|].
  rewrite Hloop in *. cbn [fst snd] in *. destruct s' as [w cs].
  cbn [calls] in Hc. subst cs. rewrite new_calls_app.
  do 3 eexists. split; [reflexivity|]. split; [done|].
  split; [by apply (Hn acc)|done].
Qed.

Lemma bulk_import_summary_counts_every_row_witness :
  ∃ created failed errors,
    (post_coupons_bulk memory_provider integer_toString
       (request "coupons" (JArr [domain_row; bogus_row; email_row]))
       (mkSt [] [])).1 =
      Ok (mkResponse 200 (json_bulk created failed 3 errors))
    ∧ created + failed = 3.
Proof.
  destruct (bulk_import_summary_counts_every_row memory_provider integer_toString
              (request "coupons" (JArr [domain_row; bogus_row; email_row]))
              [domain_row; bogus_row; email_row] (mkSt [] []))
    as (c & f & es & Hout & Hsum & _).
  - reflexivity.
  - discriminate.
  - repeat constructor; discriminate.
  - exists c, f, es. split; [exact Hout | exact Hsum].
Defined.
